(** * Architecture diagrams of DTNet and ITNet

    A shallow embedding of [src/utils/diagrams.py].  The two generators
    [generate_dt_net_diagram] and [generate_it_net_diagram] draw a fixed
    picture on a matplotlib axes object and save it.

    - Coordinates are Python floats written as short decimal literals.
      They are embedded twice.  In the decimal reading they are exact
      rationals ([Q]): every literal stands for the decimal number it
      spells and [+], [-], [/] for the exact operations; geometric
      equalities are stated with [==].  In [Doubles] the same statements
      are evaluated as Python does, on IEEE 754 doubles.  The two pictures
      agree up to rounding, and what is stated of a picture on doubles is
      stated up to rounding where an exact equality would depend on it.
    - The axes object is the list of artists added to it, in the order of
      the calls; each drawing call is a state transformer on that list.
    - The file system touched by [Path.mkdir] and [savefig] is an explicit
      state; a raised exception is a result value that still carries the
      state reached when it was raised.  A path is the list of its
      components and names one entry: there are no links, and [..] is not
      resolved.  [savefig] takes the file type from the file name. *)

From Stdlib Require Import QArith String List Bool Lia Floats.
From Stdlib Require Import Lqa Ascii.
Import ListNotations.

Open Scope Q_scope.

(* In [float_scope] a decimal literal denotes the nearest double, as in
   Python. *)
Set Warnings "-inexact-float".

(** ** Artists

    One constructor per matplotlib object the script creates, holding the
    arguments the script passes. *)

Record text_props := mk_text_props {
  ha : string;
  va : string;
  fontsize : Z;
  fontweight : option string;
  style : option string;
  color : option string;
  zorder : option Z;
  bbox : option (string * string * string)   (* boxstyle, facecolor, edgecolor *)
}.

Inductive artist : Type :=
| FancyBboxPatch (xy : Q * Q) (width height : Q)
                 (boxstyle facecolor edgecolor : string)
                 (linewidth : Q) (linestyle : option string)
| FancyArrowPatch (posA posB : Q * Q) (arrowstyle : string)
                  (mutation_scale : Z) (acolor : string) (linewidth : Q)
| Circle (center : Q * Q) (radius : Q) (facecolor edgecolor : string)
         (linewidth : Q) (czorder : Z)
| Text (x y : Q) (s : string) (props : text_props)
| Line2D (xdata ydata : list Q) (lcolor : string) (lw : Q)
         (solid_capstyle : string)
| Annotation (s : string) (xy xytext : Q * Q)
             (arrowstyle acolor : string) (lw : Q).

(** The axes: the artists added so far, oldest first. *)
Definition Axes := list artist.

(** A drawing statement. *)
Definition draw := Axes -> Axes.

Definition add_patch (p : artist) : draw := fun ax => ax ++ [p].

Definition ax_text (x y : Q) (s : string) (props : text_props) : draw :=
  fun ax => ax ++ [Text x y s props].

Definition ax_plot (xs ys : list Q) (c : string) (lw : Q) (cap : string) : draw :=
  fun ax => ax ++ [Line2D xs ys c lw cap].

Definition ax_annotate (s : string) (xy xytext : Q * Q)
           (arrowstyle c : string) (lw : Q) : draw :=
  fun ax => ax ++ [Annotation s xy xytext arrowstyle c lw].

Definition seq (c1 c2 : draw) : draw := fun ax => c2 (c1 ax).

Declare Scope draw_scope.
Delimit Scope draw_scope with draw.
Notation "c1 ;; c2" := (seq c1 c2)
  (at level 61, right associativity) : draw_scope.

(** ** Palette *)

Definition COLORS : list (string * string) :=
  [ ("input",      "#E3F2FD");
    ("projection", "#90CAF9");
    ("recur",      "#4CAF50");
    ("residual",   "#A5D6A7");
    ("head",       "#FFE0B2");
    ("output",     "#FFF3E0");
    ("arrow",      "#37474F");
    ("concat",     "#7B1FA2");
    ("text",       "#212121");
    ("gray",       "#757575") ]%string.

Fixpoint dict_get (d : list (string * string)) (k : string) : option string :=
  match d with
  | [] => None
  | (k', v) :: d' => if String.eqb k k' then Some v else dict_get d' k
  end.

(** [COLORS[k]]; every key the script uses is present, so the [KeyError]
    branch is never taken and is rendered as the empty string. *)
Definition color_of (k : string) : string :=
  match dict_get COLORS k with
  | Some v => v
  | None => ""%string
  end.

Notation "'COLORS[' k ']'" := (color_of k%string) (at level 0, k at level 0).

(** Keyword arguments of [ax.text]; [ha] and [va] are ['center'] in every call. *)
Definition centered (size : Z) (weight sty col : option string)
           (zo : option Z) (box : option (string * string * string)) : text_props :=
  mk_text_props "center" "center" size weight sty col zo box.

(** Python truthiness of [subtitle : str | None]. *)
Definition truthy (subtitle : option string) : bool :=
  match subtitle with
  | None => false
  | Some s => negb (String.eqb s "")
  end.

Definition str_of (subtitle : option string) : string :=
  match subtitle with
  | Some s => s
  | None => ""%string
  end.

(** ** [_draw_block] and [_draw_arrow] *)

Definition _draw_block (x y w h : Q) (title : string)
           (subtitle : option string) (color : string) : draw :=
  (add_patch (FancyBboxPatch (x - w / 2, y - h / 2) w h
                "round,pad=0.02,rounding_size=0.1" color "#424242" 2.5 None) ;;
   if truthy subtitle then
     ax_text x (y + 0.15) title
       (centered 13 (Some "bold"%string) None (Some COLORS["text"]) None None) ;;
     ax_text x (y - 0.2) (str_of subtitle)
       (centered 10 None None (Some COLORS["gray"]) None None)
   else
     ax_text x y title
       (centered 13 (Some "bold"%string) None (Some COLORS["text"]) None None))%draw.

Definition _draw_arrow (x1 y1 x2 y2 : Q) : draw :=
  add_patch (FancyArrowPatch (x1, y1) (x2, y2) "-|>" 18 COLORS["arrow"] 2).

(** ** The two pictures

    The statements of each generator between [plt.subplots] and
    [plt.tight_layout], in source order and with the source's local names. *)

(** The character the escape [\n] denotes. *)
Definition nl : string := String (Ascii.ascii_of_nat 10) EmptyString.

Definition dt_net_artists : draw :=
  ((* === TITLE === *)
   ax_text 7 5.5 "DTNet" (centered 18 (Some "bold"%string) None None None None) ;;
   (* === MAIN FLOW === *)
   let y := 3.5 in
   let bw := 1.4 in
   let bh := 1.0 in
   (* Input block *)
   let input_x := 1.0 in
   _draw_block input_x y bw bh "Input" (Some ("H×W" ++ nl ++ "3 ch")%string) COLORS["input"] ;;
   (* Arrow: Input -> Projection *)
   _draw_arrow (input_x + bw / 2) y (2.8 - bw / 2) y ;;
   (* Projection block *)
   let proj_x := 2.8 in
   _draw_block proj_x y bw bh "Projection"
     (Some ("Conv2d, ReLU" ++ nl ++ "3→128 ch")%string) COLORS["projection"] ;;
   (* === RECURRENT BLOCK === *)
   let rec_x := 6.8 in
   let rec_w := 5.2 in
   let rec_h := 2.2 in
   let rec_box :=
     FancyBboxPatch (rec_x - rec_w / 2, y - rec_h / 2) rec_w rec_h
       "round,pad=0.03,rounding_size=0.15" "#E8F5E9" COLORS["recur"] 2.5
       (Some "--"%string) in
   add_patch rec_box ;;
   ax_text rec_x (y + rec_h / 2 + 0.2) "Recurrent Block  (× $K$ iterations)"
     (centered 12 (Some "bold"%string) None (Some COLORS["recur"]) None None) ;;
   (* Concat circle (input injection point) *)
   let concat_x := 5.0 in
   let circle := Circle (concat_x, y) 0.22 COLORS["concat"] "#424242" 1.5 5 in
   add_patch circle ;;
   ax_text concat_x y "+"
     (centered 14 (Some "bold"%string) None (Some "white"%string) (Some 6%Z) None) ;;
   (* Arrow: Projection -> Concat circle *)
   _draw_arrow (proj_x + bw / 2) y (concat_x - 0.22) y ;;
   (* Arrow: Concat -> Conv Recall *)
   _draw_arrow (concat_x + 0.22) y 5.9 y ;;
   (* Conv Recall block *)
   _draw_block 6.5 y 1.1 0.8 "Conv" (Some "131→128 ch"%string) COLORS["residual"] ;;
   (* Arrow: Conv -> Residual *)
   _draw_arrow 7.05 y 7.45 y ;;
   (* Residual block *)
   let residual_x := 8.0 in
   _draw_block residual_x y 1.0 0.8 "Residual" (Some "2× ResBlock"%string) COLORS["residual"] ;;
   (* Latent feedback loop: down from bottom center of Residual, left, up to concat *)
   let loop_y_bottom := y - rec_h / 2 + 0.15 in
   let residual_bottom := y - 0.4 - 0.08 in
   ax_plot [residual_x; residual_x] [residual_bottom; loop_y_bottom] COLORS["recur"] 2 "round" ;;
   let concat_arrow_x_green := concat_x + 0.1 in
   ax_plot [residual_x; concat_arrow_x_green] [loop_y_bottom; loop_y_bottom]
     COLORS["recur"] 2 "round" ;;
   ax_annotate "" (concat_arrow_x_green, y - 0.22) (concat_arrow_x_green, loop_y_bottom)
     "-|>" COLORS["recur"] 2 ;;
   ax_text 6.8 (loop_y_bottom + 0.18) "Latent"
     (centered 9 None (Some "italic"%string) (Some COLORS["recur"]) None None) ;;
   (* === HEAD === *)
   let head_x := 10.6 in
   _draw_block head_x y bw bh "Head"
     (Some ("3× Conv2d" ++ nl ++ "128→32→8→2 ch")%string) COLORS["head"] ;;
   (* Arrow: Residual -> Head *)
   _draw_arrow (residual_x + 0.5) y (head_x - bw / 2) y ;;
   (* === OUTPUT === *)
   let output_x := 12.4 in
   _draw_block output_x y bw bh "Prediction"
     (Some ("Argmax" ++ nl ++ "H×W, 2 cls")%string) COLORS["output"] ;;
   (* Arrow: Head -> Output *)
   _draw_arrow (head_x + bw / 2) y (output_x - bw / 2) y ;;
   (* === INPUT INJECTION + MASK PATH (purple, below main flow) === *)
   let inject_y := y - 1.8 in
   let concat_arrow_x_purple := concat_x - 0.1 in
   let input_bottom := y - bh / 2 - 0.08 in
   let output_bottom := y - bh / 2 - 0.08 in
   ax_plot [input_x; input_x] [input_bottom; inject_y] COLORS["concat"] 2.5 "round" ;;
   ax_plot [input_x; output_x] [inject_y; inject_y] COLORS["concat"] 2.5 "round" ;;
   ax_annotate "" (concat_arrow_x_purple, y - 0.22) (concat_arrow_x_purple, inject_y)
     "-|>" COLORS["concat"] 2.5 ;;
   ax_annotate "" (output_x, output_bottom) (output_x, inject_y)
     "-|>" COLORS["concat"] 2.5 ;;
   (* Labels *)
   ax_text 3.0 (inject_y - 0.35) "Input Injection (every iteration)"
     (centered 10 (Some "bold"%string) None (Some "white"%string) None
        (Some ("round,pad=0.25", COLORS["concat"], "none")%string)) ;;
   ax_text (output_x - 4.6) (inject_y - 0.35) "Mask (zero out walls)"
     (centered 10 (Some "bold"%string) None (Some "white"%string) None
        (Some ("round,pad=0.25", COLORS["concat"], "none")%string)))%draw.

Definition it_net_artists : draw :=
  ((* === TITLE === *)
   ax_text 7 5.5 "ITNet" (centered 18 (Some "bold"%string) None None None None) ;;
   (* === MAIN FLOW === *)
   let y := 3.5 in
   let bw := 1.4 in
   let bh := 1.0 in
   (* Input block *)
   let input_x := 1.0 in
   _draw_block input_x y bw bh "Input" (Some ("H×W" ++ nl ++ "3 ch")%string) COLORS["input"] ;;
   (* Arrow: Input -> Projection *)
   _draw_arrow (input_x + bw / 2) y (2.8 - bw / 2) y ;;
   (* Projection block *)
   let proj_x := 2.8 in
   _draw_block proj_x y bw bh "Projection"
     (Some ("Conv2d, ReLU" ++ nl ++ "3→128 ch")%string) COLORS["projection"] ;;
   (* === RECURRENT BLOCK === *)
   let rec_x := 6.8 in
   let rec_w := 5.2 in
   let rec_h := 2.2 in
   let rec_box :=
     FancyBboxPatch (rec_x - rec_w / 2, y - rec_h / 2) rec_w rec_h
       "round,pad=0.03,rounding_size=0.15" "#E8F5E9" COLORS["recur"] 2.5
       (Some "--"%string) in
   add_patch rec_box ;;
   ax_text rec_x (y + rec_h / 2 + 0.2)
     "Recurrent Block  (× $K$ iters, until $\|z^{(k)} - z^{(k-1)}\| < \epsilon$)"
     (centered 12 (Some "bold"%string) None (Some COLORS["recur"]) None None) ;;
   (* Concat circle (input injection point) *)
   let concat_x := 5.0 in
   let circle := Circle (concat_x, y) 0.22 COLORS["concat"] "#424242" 1.5 5 in
   add_patch circle ;;
   ax_text concat_x y "+"
     (centered 14 (Some "bold"%string) None (Some "white"%string) (Some 6%Z) None) ;;
   (* Arrow: Projection -> Concat circle *)
   _draw_arrow (proj_x + bw / 2) y (concat_x - 0.22) y ;;
   (* Arrow: Concat -> Conv Recall *)
   _draw_arrow (concat_x + 0.22) y 5.9 y ;;
   (* Conv Recall block *)
   _draw_block 6.5 y 1.1 0.8 "Conv" (Some "131→128 ch"%string) COLORS["residual"] ;;
   (* Arrow: Conv -> Residual *)
   _draw_arrow 7.05 y 7.45 y ;;
   (* Residual block *)
   let residual_x := 8.0 in
   _draw_block residual_x y 1.0 0.8 "Residual" (Some "4× ResBlock"%string) COLORS["residual"] ;;
   (* Latent feedback loop: down from bottom center of Residual, left, up to concat *)
   let loop_y_bottom := y - rec_h / 2 + 0.15 in
   let residual_bottom := y - 0.4 - 0.08 in
   ax_plot [residual_x; residual_x] [residual_bottom; loop_y_bottom] COLORS["recur"] 2 "round" ;;
   let concat_arrow_x_green := concat_x + 0.1 in
   ax_plot [residual_x; concat_arrow_x_green] [loop_y_bottom; loop_y_bottom]
     COLORS["recur"] 2 "round" ;;
   ax_annotate "" (concat_arrow_x_green, y - 0.22) (concat_arrow_x_green, loop_y_bottom)
     "-|>" COLORS["recur"] 2 ;;
   ax_text 6.8 (loop_y_bottom + 0.18) "Latent"
     (centered 9 None (Some "italic"%string) (Some COLORS["recur"]) None None) ;;
   (* === HEAD === *)
   let head_x := 10.6 in
   _draw_block head_x y bw bh "Head"
     (Some ("3× Conv2d" ++ nl ++ "128→32→8→2 ch")%string) COLORS["head"] ;;
   (* Arrow: Residual -> Head *)
   _draw_arrow (residual_x + 0.5) y (head_x - bw / 2) y ;;
   (* === OUTPUT === *)
   let output_x := 12.4 in
   _draw_block output_x y bw bh "Prediction"
     (Some ("Argmax" ++ nl ++ "H×W, 2 cls")%string) COLORS["output"] ;;
   (* Arrow: Head -> Output *)
   _draw_arrow (head_x + bw / 2) y (output_x - bw / 2) y ;;
   (* === INPUT INJECTION + MASK PATH (purple, below main flow) === *)
   let inject_y := y - 1.8 in
   let concat_arrow_x_purple := concat_x - 0.1 in
   let input_bottom := y - bh / 2 - 0.08 in
   let output_bottom := y - bh / 2 - 0.08 in
   ax_plot [input_x; input_x] [input_bottom; inject_y] COLORS["concat"] 2.5 "round" ;;
   ax_plot [input_x; output_x] [inject_y; inject_y] COLORS["concat"] 2.5 "round" ;;
   ax_annotate "" (concat_arrow_x_purple, y - 0.22) (concat_arrow_x_purple, inject_y)
     "-|>" COLORS["concat"] 2.5 ;;
   ax_annotate "" (output_x, output_bottom) (output_x, inject_y)
     "-|>" COLORS["concat"] 2.5 ;;
   (* Labels *)
   ax_text 3.0 (inject_y - 0.35) "Input Injection (every iteration)"
     (centered 10 (Some "bold"%string) None (Some "white"%string) None
        (Some ("round,pad=0.25", COLORS["concat"], "none")%string)) ;;
   ax_text (output_x - 4.6) (inject_y - 0.35) "Mask (zero out walls)"
     (centered 10 (Some "bold"%string) None (Some "white"%string) None
        (Some ("round,pad=0.25", COLORS["concat"], "none")%string)))%draw.

(** ** The vertical offsets in binary64

    The heights that decide how the two long connectors are routed, as the
    generators compute them on IEEE 754 doubles; both generators use the
    same expressions. *)

Module Binary64.

Local Open Scope float_scope.

(* Most of the decimal literals are not doubles; each denotes the nearest
   double, as in Python. *)
#[local] Set Warnings "-inexact-float".

Definition y : float := 3.5.
Definition bh : float := 1.0.
Definition rec_h : float := 2.2.

Definition region_bottom : float := y - rec_h / 2.
Definition region_top : float := y - rec_h / 2 + rec_h.
Definition marker_bottom : float := y - 0.22.
Definition block_bottom : float := y - bh / 2.
Definition inner_block_bottom : float := y - 0.8 / 2.

Definition loop_y_bottom : float := y - rec_h / 2 + 0.15.
Definition residual_bottom : float := y - 0.4 - 0.08.
Definition inject_y : float := y - 1.8.
Definition input_bottom : float := y - bh / 2 - 0.08.
Definition output_bottom : float := y - bh / 2 - 0.08.

End Binary64.

(** ** Figures and saved documents *)

Record Figure := mk_figure {
  figsize : Q * Q;
  xlim : Q * Q;
  ylim : Q * Q;
  aspect : string;
  axis_on : bool;
  artists : Axes
}.

(** [plt.subplots(1, 1, figsize=...)]: one empty axes with matplotlib's
    initial view. *)
Definition subplots (size : Q * Q) : Figure :=
  mk_figure size (0, 1) (0, 1) "auto" true [].

Definition set_xlim (a b : Q) (f : Figure) : Figure :=
  mk_figure (figsize f) (a, b) (ylim f) (aspect f) (axis_on f) (artists f).

Definition set_ylim (a b : Q) (f : Figure) : Figure :=
  mk_figure (figsize f) (xlim f) (a, b) (aspect f) (axis_on f) (artists f).

Definition set_aspect (a : string) (f : Figure) : Figure :=
  mk_figure (figsize f) (xlim f) (ylim f) a (axis_on f) (artists f).

Definition axis_off (f : Figure) : Figure :=
  mk_figure (figsize f) (xlim f) (ylim f) (aspect f) false (artists f).

Definition on_axes (d : draw) (f : Figure) : Figure :=
  mk_figure (figsize f) (xlim f) (ylim f) (aspect f) (axis_on f) (d (artists f)).

(** What a saved file holds of the call [plt.savefig(path,
    bbox_inches=..., facecolor=...)]: the figure, the two options and the
    file type.  The bytes are the encoder's; what it adds of its own, such
    as the creation date of a PDF, is not part of this description, so two
    files with equal descriptions show the same picture and need not be
    equal byte for byte. *)
Record Document := mk_document {
  figure : Figure;
  bbox_inches : string;
  page_color : string;
  filetype : string
}.

(** The figure each generator has built when it reaches [plt.savefig]. *)
Definition dt_net_figure : Figure :=
  on_axes dt_net_artists
    (axis_off (set_aspect "equal" (set_ylim 1 6 (set_xlim 0 14 (subplots (14, 5)))))).

Definition it_net_figure : Figure :=
  on_axes it_net_artists
    (axis_off (set_aspect "equal" (set_ylim 1 6 (set_xlim 0 14 (subplots (14, 5)))))).

(** ** The pictures on doubles

    Python computes the coordinates on IEEE 754 doubles: a decimal literal
    is the nearest double and [+], [-], [/] round to nearest.  The module
    repeats [_draw_block], [_draw_arrow] and the two pictures with that
    arithmetic.  An artist still holds rationals: each double is stored as
    the rational it is, so that what reads geometry back from the axes
    applies to both readings of the source. *)

(** The rational a finite double is (zero for the others, which do not
    occur in the pictures). *)
Definition exact (f : float) : Q :=
  match Prim2SF f with
  | S754_finite s m e =>
      let v := if (0 <=? e)%Z then inject_Z (Z.pos m * 2 ^ e)
               else Z.pos m # (2 ^ Z.to_pos (- e)) in
      if s then - v else v
  | _ => 0
  end.

Module Doubles.

Local Open Scope float_scope.

(* Most of the decimal literals are not doubles; each denotes the nearest
   double, as in Python. *)
#[local] Set Warnings "-inexact-float".

Definition point (p : float * float) : Q * Q := (exact (fst p), exact (snd p)).

(** The artists and the drawing calls, taking doubles. *)
Definition FancyBboxPatch (xy : float * float) (width height : float)
           (boxstyle facecolor edgecolor : string)
           (linewidth : float) (linestyle : option string) : artist :=
  FancyBboxPatch (point xy) (exact width) (exact height)
                 boxstyle facecolor edgecolor (exact linewidth) linestyle.

Definition FancyArrowPatch (posA posB : float * float) (arrowstyle : string)
           (mutation_scale : Z) (acolor : string) (linewidth : float) : artist :=
  FancyArrowPatch (point posA) (point posB) arrowstyle mutation_scale acolor
                  (exact linewidth).

Definition Circle (center : float * float) (radius : float)
           (facecolor edgecolor : string) (linewidth : float) (czorder : Z) : artist :=
  Circle (point center) (exact radius) facecolor edgecolor (exact linewidth) czorder.

Definition Text (x y : float) (s : string) (props : text_props) : artist :=
  Text (exact x) (exact y) s props.

Definition ax_text (x y : float) (s : string) (props : text_props) : draw :=
  fun ax => ax ++ [Text x y s props].

Definition ax_plot (xs ys : list float) (c : string) (lw : float) (cap : string) : draw :=
  fun ax => ax ++ [Line2D (map exact xs) (map exact ys) c (exact lw) cap].

Definition ax_annotate (s : string) (xy xytext : float * float)
           (arrowstyle c : string) (lw : float) : draw :=
  fun ax => ax ++ [Annotation s (point xy) (point xytext) arrowstyle c (exact lw)].

Definition _draw_block (x y w h : float) (title : string)
           (subtitle : option string) (color : string) : draw :=
  (add_patch (FancyBboxPatch (x - w / 2, y - h / 2) w h
                "round,pad=0.02,rounding_size=0.1" color "#424242" 2.5 None) ;;
   if truthy subtitle then
     ax_text x (y + 0.15) title
       (centered 13 (Some "bold"%string) None (Some COLORS["text"]) None None) ;;
     ax_text x (y - 0.2) (str_of subtitle)
       (centered 10 None None (Some COLORS["gray"]) None None)
   else
     ax_text x y title
       (centered 13 (Some "bold"%string) None (Some COLORS["text"]) None None))%draw.

Definition _draw_arrow (x1 y1 x2 y2 : float) : draw :=
  add_patch (FancyArrowPatch (x1, y1) (x2, y2) "-|>" 18 COLORS["arrow"] 2).

Definition dt_net_artists : draw :=
  ((* === TITLE === *)
   ax_text 7 5.5 "DTNet" (centered 18 (Some "bold"%string) None None None None) ;;
   (* === MAIN FLOW === *)
   let y := 3.5 in
   let bw := 1.4 in
   let bh := 1.0 in
   (* Input block *)
   let input_x := 1.0 in
   _draw_block input_x y bw bh "Input" (Some ("H×W" ++ nl ++ "3 ch")%string) COLORS["input"] ;;
   (* Arrow: Input -> Projection *)
   _draw_arrow (input_x + bw / 2) y (2.8 - bw / 2) y ;;
   (* Projection block *)
   let proj_x := 2.8 in
   _draw_block proj_x y bw bh "Projection"
     (Some ("Conv2d, ReLU" ++ nl ++ "3→128 ch")%string) COLORS["projection"] ;;
   (* === RECURRENT BLOCK === *)
   let rec_x := 6.8 in
   let rec_w := 5.2 in
   let rec_h := 2.2 in
   let rec_box :=
     FancyBboxPatch (rec_x - rec_w / 2, y - rec_h / 2) rec_w rec_h
       "round,pad=0.03,rounding_size=0.15" "#E8F5E9" COLORS["recur"] 2.5
       (Some "--"%string) in
   add_patch rec_box ;;
   ax_text rec_x (y + rec_h / 2 + 0.2) "Recurrent Block  (× $K$ iterations)"
     (centered 12 (Some "bold"%string) None (Some COLORS["recur"]) None None) ;;
   (* Concat circle (input injection point) *)
   let concat_x := 5.0 in
   let circle := Circle (concat_x, y) 0.22 COLORS["concat"] "#424242" 1.5 5 in
   add_patch circle ;;
   ax_text concat_x y "+"
     (centered 14 (Some "bold"%string) None (Some "white"%string) (Some 6%Z) None) ;;
   (* Arrow: Projection -> Concat circle *)
   _draw_arrow (proj_x + bw / 2) y (concat_x - 0.22) y ;;
   (* Arrow: Concat -> Conv Recall *)
   _draw_arrow (concat_x + 0.22) y 5.9 y ;;
   (* Conv Recall block *)
   _draw_block 6.5 y 1.1 0.8 "Conv" (Some "131→128 ch"%string) COLORS["residual"] ;;
   (* Arrow: Conv -> Residual *)
   _draw_arrow 7.05 y 7.45 y ;;
   (* Residual block *)
   let residual_x := 8.0 in
   _draw_block residual_x y 1.0 0.8 "Residual" (Some "2× ResBlock"%string) COLORS["residual"] ;;
   (* Latent feedback loop: down from bottom center of Residual, left, up to concat *)
   let loop_y_bottom := y - rec_h / 2 + 0.15 in
   let residual_bottom := y - 0.4 - 0.08 in
   ax_plot [residual_x; residual_x] [residual_bottom; loop_y_bottom] COLORS["recur"] 2 "round" ;;
   let concat_arrow_x_green := concat_x + 0.1 in
   ax_plot [residual_x; concat_arrow_x_green] [loop_y_bottom; loop_y_bottom]
     COLORS["recur"] 2 "round" ;;
   ax_annotate "" (concat_arrow_x_green, y - 0.22) (concat_arrow_x_green, loop_y_bottom)
     "-|>" COLORS["recur"] 2 ;;
   ax_text 6.8 (loop_y_bottom + 0.18) "Latent"
     (centered 9 None (Some "italic"%string) (Some COLORS["recur"]) None None) ;;
   (* === HEAD === *)
   let head_x := 10.6 in
   _draw_block head_x y bw bh "Head"
     (Some ("3× Conv2d" ++ nl ++ "128→32→8→2 ch")%string) COLORS["head"] ;;
   (* Arrow: Residual -> Head *)
   _draw_arrow (residual_x + 0.5) y (head_x - bw / 2) y ;;
   (* === OUTPUT === *)
   let output_x := 12.4 in
   _draw_block output_x y bw bh "Prediction"
     (Some ("Argmax" ++ nl ++ "H×W, 2 cls")%string) COLORS["output"] ;;
   (* Arrow: Head -> Output *)
   _draw_arrow (head_x + bw / 2) y (output_x - bw / 2) y ;;
   (* === INPUT INJECTION + MASK PATH (purple, below main flow) === *)
   let inject_y := y - 1.8 in
   let concat_arrow_x_purple := concat_x - 0.1 in
   let input_bottom := y - bh / 2 - 0.08 in
   let output_bottom := y - bh / 2 - 0.08 in
   ax_plot [input_x; input_x] [input_bottom; inject_y] COLORS["concat"] 2.5 "round" ;;
   ax_plot [input_x; output_x] [inject_y; inject_y] COLORS["concat"] 2.5 "round" ;;
   ax_annotate "" (concat_arrow_x_purple, y - 0.22) (concat_arrow_x_purple, inject_y)
     "-|>" COLORS["concat"] 2.5 ;;
   ax_annotate "" (output_x, output_bottom) (output_x, inject_y)
     "-|>" COLORS["concat"] 2.5 ;;
   (* Labels *)
   ax_text 3.0 (inject_y - 0.35) "Input Injection (every iteration)"
     (centered 10 (Some "bold"%string) None (Some "white"%string) None
        (Some ("round,pad=0.25", COLORS["concat"], "none")%string)) ;;
   ax_text (output_x - 4.6) (inject_y - 0.35) "Mask (zero out walls)"
     (centered 10 (Some "bold"%string) None (Some "white"%string) None
        (Some ("round,pad=0.25", COLORS["concat"], "none")%string)))%draw.

Definition it_net_artists : draw :=
  ((* === TITLE === *)
   ax_text 7 5.5 "ITNet" (centered 18 (Some "bold"%string) None None None None) ;;
   (* === MAIN FLOW === *)
   let y := 3.5 in
   let bw := 1.4 in
   let bh := 1.0 in
   (* Input block *)
   let input_x := 1.0 in
   _draw_block input_x y bw bh "Input" (Some ("H×W" ++ nl ++ "3 ch")%string) COLORS["input"] ;;
   (* Arrow: Input -> Projection *)
   _draw_arrow (input_x + bw / 2) y (2.8 - bw / 2) y ;;
   (* Projection block *)
   let proj_x := 2.8 in
   _draw_block proj_x y bw bh "Projection"
     (Some ("Conv2d, ReLU" ++ nl ++ "3→128 ch")%string) COLORS["projection"] ;;
   (* === RECURRENT BLOCK === *)
   let rec_x := 6.8 in
   let rec_w := 5.2 in
   let rec_h := 2.2 in
   let rec_box :=
     FancyBboxPatch (rec_x - rec_w / 2, y - rec_h / 2) rec_w rec_h
       "round,pad=0.03,rounding_size=0.15" "#E8F5E9" COLORS["recur"] 2.5
       (Some "--"%string) in
   add_patch rec_box ;;
   ax_text rec_x (y + rec_h / 2 + 0.2)
     "Recurrent Block  (× $K$ iters, until $\|z^{(k)} - z^{(k-1)}\| < \epsilon$)"
     (centered 12 (Some "bold"%string) None (Some COLORS["recur"]) None None) ;;
   (* Concat circle (input injection point) *)
   let concat_x := 5.0 in
   let circle := Circle (concat_x, y) 0.22 COLORS["concat"] "#424242" 1.5 5 in
   add_patch circle ;;
   ax_text concat_x y "+"
     (centered 14 (Some "bold"%string) None (Some "white"%string) (Some 6%Z) None) ;;
   (* Arrow: Projection -> Concat circle *)
   _draw_arrow (proj_x + bw / 2) y (concat_x - 0.22) y ;;
   (* Arrow: Concat -> Conv Recall *)
   _draw_arrow (concat_x + 0.22) y 5.9 y ;;
   (* Conv Recall block *)
   _draw_block 6.5 y 1.1 0.8 "Conv" (Some "131→128 ch"%string) COLORS["residual"] ;;
   (* Arrow: Conv -> Residual *)
   _draw_arrow 7.05 y 7.45 y ;;
   (* Residual block *)
   let residual_x := 8.0 in
   _draw_block residual_x y 1.0 0.8 "Residual" (Some "4× ResBlock"%string) COLORS["residual"] ;;
   (* Latent feedback loop: down from bottom center of Residual, left, up to concat *)
   let loop_y_bottom := y - rec_h / 2 + 0.15 in
   let residual_bottom := y - 0.4 - 0.08 in
   ax_plot [residual_x; residual_x] [residual_bottom; loop_y_bottom] COLORS["recur"] 2 "round" ;;
   let concat_arrow_x_green := concat_x + 0.1 in
   ax_plot [residual_x; concat_arrow_x_green] [loop_y_bottom; loop_y_bottom]
     COLORS["recur"] 2 "round" ;;
   ax_annotate "" (concat_arrow_x_green, y - 0.22) (concat_arrow_x_green, loop_y_bottom)
     "-|>" COLORS["recur"] 2 ;;
   ax_text 6.8 (loop_y_bottom + 0.18) "Latent"
     (centered 9 None (Some "italic"%string) (Some COLORS["recur"]) None None) ;;
   (* === HEAD === *)
   let head_x := 10.6 in
   _draw_block head_x y bw bh "Head"
     (Some ("3× Conv2d" ++ nl ++ "128→32→8→2 ch")%string) COLORS["head"] ;;
   (* Arrow: Residual -> Head *)
   _draw_arrow (residual_x + 0.5) y (head_x - bw / 2) y ;;
   (* === OUTPUT === *)
   let output_x := 12.4 in
   _draw_block output_x y bw bh "Prediction"
     (Some ("Argmax" ++ nl ++ "H×W, 2 cls")%string) COLORS["output"] ;;
   (* Arrow: Head -> Output *)
   _draw_arrow (head_x + bw / 2) y (output_x - bw / 2) y ;;
   (* === INPUT INJECTION + MASK PATH (purple, below main flow) === *)
   let inject_y := y - 1.8 in
   let concat_arrow_x_purple := concat_x - 0.1 in
   let input_bottom := y - bh / 2 - 0.08 in
   let output_bottom := y - bh / 2 - 0.08 in
   ax_plot [input_x; input_x] [input_bottom; inject_y] COLORS["concat"] 2.5 "round" ;;
   ax_plot [input_x; output_x] [inject_y; inject_y] COLORS["concat"] 2.5 "round" ;;
   ax_annotate "" (concat_arrow_x_purple, y - 0.22) (concat_arrow_x_purple, inject_y)
     "-|>" COLORS["concat"] 2.5 ;;
   ax_annotate "" (output_x, output_bottom) (output_x, inject_y)
     "-|>" COLORS["concat"] 2.5 ;;
   (* Labels *)
   ax_text 3.0 (inject_y - 0.35) "Input Injection (every iteration)"
     (centered 10 (Some "bold"%string) None (Some "white"%string) None
        (Some ("round,pad=0.25", COLORS["concat"], "none")%string)) ;;
   ax_text (output_x - 4.6) (inject_y - 0.35) "Mask (zero out walls)"
     (centered 10 (Some "bold"%string) None (Some "white"%string) None
        (Some ("round,pad=0.25", COLORS["concat"], "none")%string)))%draw.

Definition dt_net_figure : Figure :=
  on_axes dt_net_artists
    (axis_off (set_aspect "equal" (set_ylim 1 6 (set_xlim 0 14 (subplots (14, 5)%Q))))).

Definition it_net_figure : Figure :=
  on_axes it_net_artists
    (axis_off (set_aspect "equal" (set_ylim 1 6 (set_xlim 0 14 (subplots (14, 5)%Q))))).

Definition dt_axes : Axes := artists dt_net_figure.
Definition it_axes : Axes := artists it_net_figure.

End Doubles.

(** ** Paths and the file system

    A [pathlib.Path] is its list of components, innermost first, so that
    [.parent] is the tail; the empty list is the anchor ([.] or [/]), which
    is its own parent and always a directory. *)

Definition Path := list string.

Definition parent (p : Path) : Path := tl p.

Definition joinpath (p : Path) (c : string) : Path := c :: p.

Notation "p // c" := (joinpath p c%string) (at level 40, left associativity).

(** [str(p)]: the components joined by ["/"]; the anchor alone is ["."],
    and the root component ["/"] of an absolute path is not followed by a
    second separator. *)
Definition str (p : Path) : string :=
  match rev p with
  | [] => "."%string
  | c :: rest =>
      if String.eqb c "/" then ("/" ++ String.concat "/" rest)%string
      else String.concat "/" (c :: rest)
  end.

Fixpoint path_eqb (p q : Path) : bool :=
  match p, q with
  | [], [] => true
  | c :: p', d :: q' => String.eqb c d && path_eqb p' q'
  | _, _ => false
  end.

Inductive node : Type :=
| Dir
| File (d : Document).

Definition FileSystem := Path -> option node.

Definition lookup (fs : FileSystem) (p : Path) : option node :=
  match p with
  | [] => Some Dir
  | _ => fs p
  end.

Definition update (fs : FileSystem) (p : Path) (n : node) : FileSystem :=
  fun q => if path_eqb q p then Some n else fs q.

Definition is_dir (fs : FileSystem) (p : Path) : bool :=
  match lookup fs p with
  | Some Dir => true
  | _ => false
  end.

Inductive OSError : Type :=
| FileNotFoundError
| FileExistsError
| NotADirectoryError
| IsADirectoryError.

(** What a generator can raise: an [OSError] of the file system, or the
    [ValueError] of [savefig] for a file type it does not know. *)
Inductive Exception : Type :=
| OS (e : OSError)
| ValueError.

Coercion OS : OSError >-> Exception.

(** A call either returns or raises; the state reached is kept in both
    cases, since what was written before an exception stays written. *)
Inductive result (S : Type) : Type :=
| Ok (s : S)
| Raise (e : Exception) (s : S).
Arguments Ok {S} s.
Arguments Raise {S} e s.

(** [os.mkdir(p)]: the system call behind [Path.mkdir]. *)
Definition os_mkdir (fs : FileSystem) (p : Path) : OSError + FileSystem :=
  match lookup fs p with
  | Some _ => inl FileExistsError
  | None =>
      match lookup fs (parent p) with
      | Some Dir => inr (update fs p Dir)
      | Some (File _) => inl NotADirectoryError
      | None => inl FileNotFoundError
      end
  end.

(** [p.mkdir(parents=True, exist_ok=True)] as the standard library's
    [pathlib] defines it: try [os.mkdir]; on [FileNotFoundError] make the
    parent the same way and retry once; on any other [OSError] return
    normally when [p] is a directory and re-raise otherwise. *)
Fixpoint Path_mkdir (p : Path) (fs : FileSystem) : result FileSystem :=
  match os_mkdir fs p with
  | inr fs' => Ok fs'
  | inl FileNotFoundError =>
      match p with
      | [] => Raise FileNotFoundError fs
      | _ :: up =>
          match Path_mkdir up fs with
          | Raise e fs1 => Raise e fs1
          | Ok fs1 =>
              match os_mkdir fs1 p with
              | inr fs2 => Ok fs2
              | inl FileNotFoundError => Raise FileNotFoundError fs1
              | inl e => if is_dir fs1 p then Ok fs1 else Raise e fs1
              end
          end
      end
  | inl e => if is_dir fs p then Ok fs else Raise e fs
  end.

(** *** The file name and file type [savefig] settles on

    [FigureCanvasBase.print_figure] takes the file type from the name:
    [os.path.splitext(name)[1][1:]], and, when that is empty, the default
    ['png'], which it then appends to the name stripped of trailing dots;
    the type is lower-cased and must be one the canvas can write. *)

Fixpoint all_dots (s : string) : bool :=
  match s with
  | EmptyString => true
  | String c s' => Ascii.eqb c "."%char && all_dots s'
  end.

(** The name cut at its last dot. *)
Fixpoint split_last_dot (s : string) : option (string * string) :=
  match s with
  | EmptyString => None
  | String c s' =>
      match split_last_dot s' with
      | Some (root, ext) => Some (String c root, ext)
      | None => if Ascii.eqb c "."%char then Some (EmptyString, s) else None
      end
  end.

(** [os.path.splitext] on a name without separators: the extension starts
    at the last dot, unless nothing but dots comes before it. *)
Definition splitext (name : string) : string * string :=
  match split_last_dot name with
  | Some (root, ext) => if all_dots root then (name, EmptyString) else (root, ext)
  | None => (name, EmptyString)
  end.

(** [name.rstrip('.')]. *)
Fixpoint rstrip_dots (s : string) : string :=
  match s with
  | EmptyString => EmptyString
  | String c s' =>
      match rstrip_dots s' with
      | EmptyString => if Ascii.eqb c "."%char then EmptyString else String c EmptyString
      | t => String c t
      end
  end.

Definition lower_char (c : Ascii.ascii) : Ascii.ascii :=
  let n := Ascii.nat_of_ascii c in
  if Nat.leb 65 n && Nat.leb n 90 then Ascii.ascii_of_nat (n + 32) else c.

(** [s.lower()] on the letters A to Z; none of the file types below has a
    letter that another character lower-cases to. *)
Fixpoint lower (s : string) : string :=
  match s with
  | EmptyString => EmptyString
  | String c s' => String (lower_char c) (lower s')
  end.

(** [rcParams['savefig.format']] as matplotlib ships it. *)
Definition default_filetype : string := "png".

(** The file types of [FigureCanvasBase.get_supported_filetypes()]. *)
Definition supported_filetypes : list string :=
  [ "eps"; "jpeg"; "jpg"; "pdf"; "pgf"; "png"; "ps"; "raw"; "rgba";
    "svg"; "svgz"; "tif"; "tiff"; "webp" ]%string.

(** The name written and the file type, for a file name as given. *)
Definition print_name (name : string) : option (string * string) :=
  let format :=
    match snd (splitext name) with
    | EmptyString => EmptyString
    | String _ e => e
    end in
  if String.eqb format "" then
    Some ((rstrip_dots name ++ "." ++ default_filetype)%string, default_filetype)
  else
    let format := lower format in
    if existsb (String.eqb format) supported_filetypes then Some (name, format)
    else None.

(** The path written and the file type, for a path as given.  The anchor
    prints as ["."] and the root as ["/"]; stripped of the dot they leave
    the name [".png"] in that directory. *)
Definition print_target (p : Path) : option (Path * string) :=
  match p with
  | [] => Some ([".png"%string], default_filetype)
  | name :: up =>
      if String.eqb name "/" then Some (".png"%string :: p, default_filetype)
      else
        match print_name name with
        | Some (written, format) => Some (written :: up, format)
        | None => None
        end
  end.

(** Opening [p] for writing and storing the document there: an existing
    file is overwritten, a directory at [p] or a missing parent is an error. *)
Definition write_file (d : Document) (p : Path) (fs : FileSystem) : result FileSystem :=
  match lookup fs p with
  | Some Dir => Raise IsADirectoryError fs
  | _ =>
      match lookup fs (parent p) with
      | Some Dir => Ok (update fs p (File d))
      | Some (File _) => Raise NotADirectoryError fs
      | None => Raise FileNotFoundError fs
      end
  end.

(** ** The generators

    A generator makes sure the parent directory exists, builds its figure,
    saves it and prints the path.  [Path(output_path)] is the identity on
    paths; [plt.tight_layout] and [plt.close] leave the saved description
    and the world untouched and have no counterpart here. *)

Record World := mk_world {
  fs : FileSystem;
  stdout : list string
}.

Definition action := World -> result World.

Definition on_fs (f : FileSystem -> result FileSystem) : action :=
  fun w =>
    match f (fs w) with
    | Ok fs' => Ok (mk_world fs' (stdout w))
    | Raise e fs' => Raise e (mk_world fs' (stdout w))
    end.

Definition print (line : string) : action :=
  fun w => Ok (mk_world (fs w) (stdout w ++ [line])).

(** [plt.savefig(p, bbox_inches=bbox, facecolor=color)] with no [format]
    argument: the file type is read off the name, the file is written
    where [print_target] says, and an unknown file type is a [ValueError]
    before anything is opened. *)
Definition savefig (f : Figure) (p : Path) (bbox color : string) : action :=
  match print_target p with
  | Some (target, format) => on_fs (write_file (mk_document f bbox color format) target)
  | None => fun w => Raise ValueError w
  end.

Definition and_then (a b : action) : action :=
  fun w =>
    match a w with
    | Ok w' => b w'
    | Raise e w' => Raise e w'
    end.

Declare Scope action_scope.
Delimit Scope action_scope with action.
Notation "a >> b" := (and_then a b)
  (at level 62, right associativity) : action_scope.

Definition generate_dt_net_diagram (output_path : Path) : action :=
  (on_fs (Path_mkdir (parent output_path)) >>
   savefig dt_net_figure output_path "tight" "white" >>
   print ("Saved: " ++ str output_path)%string)%action.

Definition generate_it_net_diagram (output_path : Path) : action :=
  (on_fs (Path_mkdir (parent output_path)) >>
   savefig it_net_figure output_path "tight" "white" >>
   print ("Saved: " ++ str output_path)%string)%action.

(** The [__main__] block; [file] is [Path(__file__)]. *)
Definition main (file : Path) : action :=
  let project_root := parent (parent (parent file)) in
  let output_dir := project_root // "outputs" // "diagrams" in
  (generate_dt_net_diagram (output_dir // "dt_net_architecture.pdf") >>
   generate_it_net_diagram (output_dir // "it_net_architecture.pdf"))%action.

(** ** Reading geometry back from the axes *)

(** Axis-parallel rectangle.  For a [FancyBboxPatch] it is the rectangle
    given by [xy], [width] and [height] (the box style's padding is not
    added); for a [Circle] the square around it.  The far edges are the
    exact sums; matplotlib rounds its own once more. *)
Record box := mk_box {
  xmin : Q;
  ymin : Q;
  xmax : Q;
  ymax : Q
}.

Definition rect (xy : Q * Q) (w h : Q) : box :=
  mk_box (fst xy) (snd xy) (fst xy + w) (snd xy + h).

Definition center (b : box) : Q * Q :=
  ((xmin b + xmax b) / 2, (ymin b + ymax b) / 2).

Definition extent (a : artist) : option box :=
  match a with
  | FancyBboxPatch xy w h _ _ _ _ _ => Some (rect xy w h)
  | Circle c r _ _ _ _ => Some (mk_box (fst c - r) (snd c - r) (fst c + r) (snd c + r))
  | _ => None
  end.

Definition Qlt_bool (a b : Q) : bool := negb (Qle_bool b a).

(** Closed rectangle: boundary included. *)
Definition in_box (p : Q * Q) (b : box) : bool :=
  Qle_bool (xmin b) (fst p) && Qle_bool (fst p) (xmax b) &&
  Qle_bool (ymin b) (snd p) && Qle_bool (snd p) (ymax b).

(** Strictly under the rectangle, within its horizontal extent. *)
Definition under_box (p : Q * Q) (b : box) : bool :=
  Qle_bool (xmin b) (fst p) && Qle_bool (fst p) (xmax b) &&
  Qlt_bool (snd p) (ymin b).

(** The points a connector joins, in drawing direction: an arrow patch
    runs from [posA] to [posB], an annotation arrow from [xytext] to [xy],
    a line through its data points. *)
Definition endpoints (a : artist) : list (Q * Q) :=
  match a with
  | FancyArrowPatch pa pb _ _ _ _ => [pa; pb]
  | Line2D xs ys _ _ _ => combine xs ys
  | Annotation _ xy xytext _ _ _ => [xytext; xy]
  | _ => []
  end.

Definition is_connector (a : artist) : bool :=
  match a with
  | FancyArrowPatch _ _ _ _ _ _ | Line2D _ _ _ _ _ | Annotation _ _ _ _ _ _ => true
  | _ => false
  end.

Definition is_dashed (a : artist) : bool :=
  match a with
  | FancyBboxPatch _ _ _ _ _ _ _ (Some _) => true
  | _ => false
  end.

(** Colour of a routed connector ([ax.plot] line or annotation arrow). *)
Definition route_color (a : artist) : option string :=
  match a with
  | Line2D _ _ c _ _ => Some c
  | Annotation _ _ _ _ c _ => Some c
  | _ => None
  end.

Definition routed_in (c : string) (a : artist) : bool :=
  match route_color a with
  | Some c' => String.eqb c c'
  | None => false
  end.

(** Height of a horizontal two-point line of colour [c]. *)
Definition horizontal_at (c : string) (a : artist) : option Q :=
  match a with
  | Line2D [x1; x2] [y1; y2] c' _ _ =>
      if String.eqb c c' && Qeq_bool y1 y2 && negb (Qeq_bool x1 x2)
      then Some y1 else None
  | _ => None
  end.

(** An annotation arrow of colour [c] that runs straight up: its tail and
    its tip. *)
Definition riser (c : string) (a : artist) : option ((Q * Q) * (Q * Q)) :=
  match a with
  | Annotation _ xy xytext _ c' _ =>
      if String.eqb c c' && Qeq_bool (fst xy) (fst xytext)
         && Qlt_bool (snd xytext) (snd xy)
      then Some (xytext, xy) else None
  | _ => None
  end.

Fixpoint pick {A B : Type} (f : A -> option B) (l : list A) : list B :=
  match l with
  | [] => []
  | a :: l' =>
      match f a with
      | Some b => b :: pick f l'
      | None => pick f l'
      end
  end.

(** The dashed regions, the solid blocks and the circular markers of a picture. *)
Definition regions (ax : Axes) : list box :=
  pick extent (filter is_dashed ax).

Definition solid_blocks (ax : Axes) : list box :=
  pick
    (fun a => match a with
              | FancyBboxPatch _ _ _ _ _ _ _ None => extent a
              | _ => None
              end) ax.

Definition markers (ax : Axes) : list box :=
  pick
    (fun a => match a with
              | Circle _ _ _ _ _ _ => extent a
              | _ => None
              end) ax.

(** A block as [_draw_block] leaves it on the axes: the patch, the title
    and, when there is one, the subtitle (the size-10 text in the gray of
    the palette that follows the title). *)
Record block := mk_block {
  frame : box;
  title_at : Q * Q;
  title : string;
  subtitle_of : option (Q * Q * string)
}.

Definition is_subtitle (p : text_props) : bool :=
  Z.eqb (fontsize p) 10 &&
  match color p with
  | Some c => String.eqb c COLORS["gray"]
  | None => false
  end.

Fixpoint read_blocks (ax : Axes) : list block :=
  match ax with
  | [] => []
  | a :: rest =>
      match a, rest with
      | FancyBboxPatch xy w h _ _ _ _ None,
        Text tx ty t _ :: Text sx sy s p :: _ =>
          if is_subtitle p
          then mk_block (rect xy w h) (tx, ty) t (Some (sx, sy, s)) :: read_blocks rest
          else mk_block (rect xy w h) (tx, ty) t None :: read_blocks rest
      | FancyBboxPatch xy w h _ _ _ _ None, Text tx ty t _ :: _ =>
          mk_block (rect xy w h) (tx, ty) t None :: read_blocks rest
      | _, _ => read_blocks rest
      end
  end.

Definition block_titled (t : string) (ax : Axes) : option block :=
  find (fun b => String.eqb (title b) t) (read_blocks ax).

(** ** Routing of the two long connectors *)

Definition dt_axes : Axes := artists dt_net_figure.
Definition it_axes : Axes := artists it_net_figure.

(** The reading of C2: every horizontal run of the feedback loop (the
    lines in the palette's ['recur'] colour) is strictly under the bottom
    edge of every dashed region. *)
Definition feedback_below_region (ax : Axes) : Prop :=
  forall ly r,
    In ly (pick (horizontal_at COLORS["recur"]) ax) ->
    In r (regions ax) ->
    ly < ymin r.

(** What the pictures have instead: one horizontal run, inside the one
    dashed region, 0.15 above its bottom edge, and strictly under every
    solid block and under the concat marker. *)
Definition feedback_inside_region (ax : Axes) : Prop :=
  exists ly r,
    pick (horizontal_at COLORS["recur"]) ax = [ly] /\
    regions ax = [r] /\
    ly == ymin r + 0.15 /\
    ymin r < ly /\ ly < ymax r /\
    Forall (fun a => forallb (fun p => in_box p r) (endpoints a) = true)
           (filter (routed_in COLORS["recur"]) ax) /\
    Forall (fun b => ly < ymin b) (solid_blocks ax ++ markers ax).

(** ** Where connectors start and end *)

Definition same_point (p q : Q * Q) : bool :=
  Qeq_bool (fst p) (fst q) && Qeq_bool (snd p) (snd q).

(** The anchors of a picture: the centres of all its shapes. *)
Definition anchors (ax : Axes) : list (Q * Q) := map center (pick extent ax).

(** A rule decides whether an endpoint [p] of connector [a] is acceptable,
    given the extents of the shapes placed before [a] and the artists
    placed after it. *)
Definition rule := list box -> artist -> Axes -> Q * Q -> bool.

(** Walks the axes in emission order and collects every connector endpoint
    the rule rejects. *)
Fixpoint strays (accept : rule) (placed : list box) (todo : Axes) : list (Q * Q) :=
  match todo with
  | [] => []
  | a :: rest =>
      filter (fun p => negb (accept placed a rest p)) (endpoints a)
        ++ strays accept (placed ++ pick extent [a]) rest
  end.

(** The rule of C3: inside or on the extent of a shape placed earlier, or
    equal to an anchor of the picture. *)
Definition on_earlier_shape_or_anchor (ax : Axes) : rule :=
  fun placed _ _ p =>
    existsb (in_box p) placed || existsb (same_point p) (anchors ax).

Definition endpoints_grounded (ax : Axes) : Prop :=
  strays (on_earlier_shape_or_anchor ax) [] ax = [].

(** The endpoints that are on no earlier shape and on no anchor: the head
    of the Input -> Projection arrow and seven points of the injection path. *)
Definition off_shape_points : list (Q * Q) :=
  [ (2.1, 3.5);
    (1.0, 2.92); (1.0, 1.7);
    (1.0, 1.7); (12.4, 1.7);
    (4.9, 1.7);
    (12.4, 1.7); (12.4, 2.92) ].

(** ** Order of emission *)

Inductive stage : Type :=
| TitleText
| InputBlock
| ProjectionBlock
| RecurrentRegion
| ConcatMarker
| ConvBlock
| ResidualBlock
| FeedbackLoop
| HeadBlock
| OutputBlock
| InjectionPath
| AnnotationLabels
| FlowArrow.

Definition stage_eqb (s t : stage) : bool :=
  match s, t with
  | TitleText, TitleText | InputBlock, InputBlock
  | ProjectionBlock, ProjectionBlock | RecurrentRegion, RecurrentRegion
  | ConcatMarker, ConcatMarker | ConvBlock, ConvBlock
  | ResidualBlock, ResidualBlock | FeedbackLoop, FeedbackLoop
  | HeadBlock, HeadBlock | OutputBlock, OutputBlock
  | InjectionPath, InjectionPath | AnnotationLabels, AnnotationLabels
  | FlowArrow, FlowArrow => true
  | _, _ => false
  end.

(** The block a bold size-13 text is the title of. *)
Definition block_stage (t : string) : option stage :=
  if String.eqb t "Input" then Some InputBlock
  else if String.eqb t "Projection" then Some ProjectionBlock
  else if String.eqb t "Conv" then Some ConvBlock
  else if String.eqb t "Residual" then Some ResidualBlock
  else if String.eqb t "Head" then Some HeadBlock
  else if String.eqb t "Prediction" then Some OutputBlock
  else None.

(** The artist by which each element of a picture is recognised: the
    size-18 text is the title; a block is recognised by its title text
    (its frame is added just before, its subtitle just after, by the same
    [_draw_block] call); the dashed patch is the recurrent region and the
    circle the concat marker (their own texts follow them); lines and
    annotation arrows belong to the feedback loop or to the injection path
    by their colour (the text ['Latent'] belongs to the loop); the boxed
    texts are the annotation labels; arrow patches are the straight arrows
    of the main flow. *)
Definition stage_of (a : artist) : option stage :=
  match a with
  | Text _ _ s p =>
      if Z.eqb (fontsize p) 18 then Some TitleText
      else match bbox p with
           | Some _ => Some AnnotationLabels
           | None => if Z.eqb (fontsize p) 13 then block_stage s else None
           end
  | FancyBboxPatch _ _ _ _ _ _ _ (Some _) => Some RecurrentRegion
  | FancyBboxPatch _ _ _ _ _ _ _ None => None
  | Circle _ _ _ _ _ _ => Some ConcatMarker
  | FancyArrowPatch _ _ _ _ _ _ => Some FlowArrow
  | Line2D _ _ c _ _ | Annotation _ _ _ _ c _ =>
      if String.eqb c COLORS["recur"] then Some FeedbackLoop
      else if String.eqb c COLORS["concat"] then Some InjectionPath
      else None
  end.

(** Drops every element equal to its predecessor. *)
Fixpoint squeeze (l : list stage) : list stage :=
  match l with
  | [] => []
  | s :: l' =>
      match l' with
      | t :: _ => if stage_eqb s t then squeeze l' else s :: squeeze l'
      | [] => [s]
      end
  end.

Definition is_flow_arrow (s : stage) : bool := stage_eqb s FlowArrow.

(** The stages of a picture in emission order, with and without the
    straight arrows of the main flow. *)
Definition emission_order (ax : Axes) : list stage :=
  squeeze (pick stage_of ax).

Definition element_order (ax : Axes) : list stage :=
  squeeze (filter (fun s => negb (is_flow_arrow s)) (pick stage_of ax)).

(** ** The two pictures compared *)

Definition dt_recurrent_label : string :=
  "Recurrent Block  (× $K$ iterations)".

Definition it_recurrent_label : string :=
  "Recurrent Block  (× $K$ iters, until $\|z^{(k)} - z^{(k-1)}\| < \epsilon$)".

(** The three strings in which the ITNet picture differs. *)
Definition it_string (s : string) : string :=
  if String.eqb s "DTNet" then "ITNet"%string
  else if String.eqb s dt_recurrent_label then it_recurrent_label
  else if String.eqb s "2× ResBlock" then "4× ResBlock"%string
  else s.

Definition relabel (a : artist) : artist :=
  match a with
  | Text x y s p => Text x y (it_string s) p
  | _ => a
  end.

(** The texts [relabel] changes, with what it changes them to. *)
Definition relabelled (a : artist) : option (string * string) :=
  match a with
  | Text _ _ s _ => if String.eqb (it_string s) s then None else Some (s, it_string s)
  | _ => None
  end.

(** ** Predicates on paths and file systems *)

(** [q] is [p] or one of its ancestors. *)
Definition above (q p : Path) : Prop := exists pre, p = pre ++ q.

(** [fs'] is [fs] with directories added, and only at [p] or above it. *)
Definition grown_along (p : Path) (fs fs' : FileSystem) : Prop :=
  forall q, lookup fs' q = lookup fs q \/
            (lookup fs q = None /\ lookup fs' q = Some Dir /\ above q p).

Definition state_of {S : Type} (r : result S) : S :=
  match r with
  | Ok s => s
  | Raise _ s => s
  end.

(** No regular file lies on the way: [p] and every path above it is a
    directory or does not exist yet. *)
Fixpoint no_file_on (fs : FileSystem) (p : Path) : bool :=
  match p with
  | [] => true
  | _ :: up =>
      match lookup fs p with
      | Some (File _) => false
      | _ => no_file_on fs up
      end
  end.

(** ** The common shape of the generators *)

(** Both generators have this shape; they differ in the figure. *)
Definition emit (f : Figure) (output_path : Path) : action :=
  (on_fs (Path_mkdir (parent output_path)) >>
   savefig f output_path "tight" "white" >>
   print ("Saved: " ++ str output_path)%string)%action.

(** The document a generator stores under a name ending in [.pdf]. *)
Definition saved (f : Figure) : Document := mk_document f "tight" "white" "pdf".

(** The path names a file type [savefig] writes as it stands: it is both
    the path printed and the path written, and the file is a PDF. *)
Definition pdf_path (p : Path) : Prop := print_target p = Some (p, "pdf"%string).

(** The output path can be written: nothing above it is a regular file and
    it is not itself a directory. *)
Definition savable (fs : FileSystem) (p : Path) : bool :=
  no_file_on fs (parent p) && negb (is_dir fs p).

(** ** Concrete worlds used as instances *)

Definition empty_fs : FileSystem := fun _ => None.

Definition fresh_world : World := mk_world empty_fs [].

(** [out/dt.pdf] and [out/it.pdf], relative to the working directory. *)
Definition out_dt : Path := [] // "out" // "dt.pdf".

(** A world in which [figs] already exists and holds an older document. *)
Definition used_world : World :=
  mk_world
    (update (update empty_fs ([] // "figs") Dir)
            ([] // "figs" // "net.pdf") (File (saved (subplots (1, 1)))))
    ["hello"%string].

(** ** The two generators as a list *)

Definition generators : list (Path -> action) :=
  [generate_dt_net_diagram; generate_it_net_diagram].

(** ** What each generator writes *)




Definition contains (part s : string) : bool :=
  match String.index 0 part s with
  | Some _ => true
  | None => false
  end.

(** The stopping criterion written into the ITNet label. *)
Definition convergence_criterion : string :=
  "until $\|z^{(k)} - z^{(k-1)}\| < \epsilon$".



(** ** The directory-ensuring step *)

(** The first statement of both generators. *)
Definition ensure_directory (output_path : Path) : action :=
  on_fs (Path_mkdir (parent output_path)).

(** ** The entry point *)

Definition output_dir (file : Path) : Path :=
  parent (parent (parent file)) // "outputs" // "diagrams".

Definition dt_target (file : Path) : Path :=
  output_dir file // "dt_net_architecture.pdf".

Definition it_target (file : Path) : Path :=
  output_dir file // "it_net_architecture.pdf".

(** The script at [repo/src/utils/diagrams.py]. *)
Definition script : Path := [] // "repo" // "src" // "utils" // "diagrams.py".

(** A world in which the output directory exists and something else, a
    directory, already has the name of the DTNet document. *)
Definition blocked_world : World :=
  mk_world
    (update
       (update
          (update (update empty_fs ([] // "repo") Dir)
                  ([] // "repo" // "outputs") Dir)
          (output_dir script) Dir)
       (dt_target script) Dir)
    [].

(** A world in which the DTNet document can be written and a directory has
    the name of the ITNet document. *)
Definition half_blocked_world : World :=
  mk_world
    (update
       (update
          (update (update empty_fs ([] // "repo") Dir)
                  ([] // "repo" // "outputs") Dir)
          (output_dir script) Dir)
       (it_target script) Dir)
    [].

(** ** Well-formed file systems *)

(** Every entry lies in a directory. *)
Definition well_formed (fs : FileSystem) : Prop :=
  forall q, lookup fs q <> None -> is_dir fs (parent q) = true.

(** ** Layout of a picture *)

(** The points an artist is placed by: the corners of a shape, the anchor
    of a text, the end points of a connector. *)
Definition placement (a : artist) : list (Q * Q) :=
  match a with
  | Text x y _ _ => [(x, y)]
  | _ =>
      match extent a with
      | Some b => [(xmin b, ymin b); (xmax b, ymax b)]
      | None => endpoints a
      end
  end.

(** The data rectangle set by [set_xlim] and [set_ylim]. *)
Definition view (f : Figure) : box :=
  mk_box (fst (xlim f)) (fst (ylim f)) (snd (xlim f)) (snd (ylim f)).

Definition within_view (f : Figure) : bool :=
  forallb (fun a => forallb (fun p => in_box p (view f)) (placement a)) (artists f).





(** The shapes of the main flow, in emission order: solid blocks and the
    circular marker. *)
Definition flow_shapes (ax : Axes) : list box :=
  pick (fun a => match a with
                 | FancyBboxPatch _ _ _ _ _ _ _ None | Circle _ _ _ _ _ _ => extent a
                 | _ => None
                 end) ax.

Definition flow_arrows (ax : Axes) : list ((Q * Q) * (Q * Q)) :=
  pick (fun a => match a with
                 | FancyArrowPatch pa pb _ _ _ _ => Some (pa, pb)
                 | _ => None
                 end) ax.












(** Every colour string an artist carries. *)
Definition colours (a : artist) : list string :=
  match a with
  | FancyBboxPatch _ _ _ _ face edge _ _ => [face; edge]
  | FancyArrowPatch _ _ _ _ c _ => [c]
  | Circle _ _ face edge _ _ => [face; edge]
  | Text _ _ _ p =>
      match color p with Some c => [c] | None => [] end ++
      match bbox p with Some (_, face, edge) => [face; edge] | None => [] end
  | Line2D _ _ c _ _ => [c]
  | Annotation _ _ _ _ c _ => [c]
  end.

Definition no_empty_colour (ax : Axes) : bool :=
  forallb (fun a => forallb (fun c => negb (String.eqb c "")) (colours a)) ax.

(** ** Saving under the name [savefig] settles on *)

(** What a generator does once [savefig] has settled on the file [t] to
    write for the output path [p]: make the directory, write, report. *)
Definition store (d : Document) (t p : Path) : action :=
  (on_fs (Path_mkdir (parent p)) >>
   on_fs (write_file d t) >>
   print ("Saved: " ++ str p)%string)%action.

(** A file name without dot or separator: it has no extension. *)
Fixpoint bare_name (s : string) : bool :=
  match s with
  | EmptyString => true
  | String c s' =>
      negb (Ascii.eqb c "."%char) && negb (Ascii.eqb c "/"%char) && bare_name s'
  end.

(** A file name without extension: not empty, no dot, no separator. *)
Definition plain_name (s : string) : bool := negb (String.eqb s "") && bare_name s.

(** No component is [..]: the path names its entry as it stands, and no
    other path of this kind names the same entry. *)
Definition resolved (p : Path) : bool :=
  forallb (fun c => negb (String.eqb c "..")) p.

(** ** Comparing up to rounding

    A double differs from the decimal number it is written as, and a sum
    of doubles from the exact sum, by a rounding error; for the sizes of
    these pictures the errors stay below [1e-14].  Positions are compared
    up to [rounding], far above that and far below the smallest distance
    the generators use (0.02). *)

Definition rounding : Q := 0.000000001.

Definition within (e a b : Q) : bool := Qle_bool (a - b) e && Qle_bool (b - a) e.

Definition close_point (e : Q) (p q : Q * Q) : bool :=
  within e (fst p) (fst q) && within e (snd p) (snd q).

Fixpoint close_points (e : Q) (l m : list (Q * Q)) : bool :=
  match l, m with
  | [], [] => true
  | p :: l', q :: m' => close_point e p q && close_points e l' m'
  | _, _ => false
  end.

Fixpoint close_list (e : Q) (l m : list Q) : bool :=
  match l, m with
  | [], [] => true
  | a :: l', b :: m' => within e a b && close_list e l' m'
  | _, _ => false
  end.

Definition close_box (e : Q) (a b : box) : bool :=
  within e (xmin a) (xmin b) && within e (ymin a) (ymin b) &&
  within e (xmax a) (xmax b) && within e (ymax a) (ymax b).

(** The rectangle with a margin of [e] on every side. *)
Definition widen (e : Q) (b : box) : box :=
  mk_box (xmin b - e) (ymin b - e) (xmax b + e) (ymax b + e).

Definition option_eqb {A : Type} (eqb : A -> A -> bool) (a b : option A) : bool :=
  match a, b with
  | Some x, Some y => eqb x y
  | None, None => true
  | _, _ => false
  end.

Definition text_props_eqb (p q : text_props) : bool :=
  String.eqb (ha p) (ha q) && String.eqb (va p) (va q) &&
  Z.eqb (fontsize p) (fontsize q) &&
  option_eqb String.eqb (fontweight p) (fontweight q) &&
  option_eqb String.eqb (style p) (style q) &&
  option_eqb String.eqb (color p) (color q) &&
  option_eqb Z.eqb (zorder p) (zorder q) &&
  option_eqb (fun a b => String.eqb (fst (fst a)) (fst (fst b)) &&
                         String.eqb (snd (fst a)) (snd (fst b)) &&
                         String.eqb (snd a) (snd b))
             (bbox p) (bbox q).

(** The same artist up to [e]: same kind, same strings and styles, every
    number within [e]. *)
Definition close_artist (e : Q) (a b : artist) : bool :=
  match a, b with
  | FancyBboxPatch xy w h bs fc ec lw ls, FancyBboxPatch xy' w' h' bs' fc' ec' lw' ls' =>
      close_point e xy xy' && within e w w' && within e h h' &&
      String.eqb bs bs' && String.eqb fc fc' && String.eqb ec ec' &&
      within e lw lw' && option_eqb String.eqb ls ls'
  | FancyArrowPatch pa pb st ms c lw, FancyArrowPatch pa' pb' st' ms' c' lw' =>
      close_point e pa pa' && close_point e pb pb' &&
      String.eqb st st' && Z.eqb ms ms' && String.eqb c c' && within e lw lw'
  | Circle c r fc ec lw z, Circle c' r' fc' ec' lw' z' =>
      close_point e c c' && within e r r' &&
      String.eqb fc fc' && String.eqb ec ec' && within e lw lw' && Z.eqb z z'
  | Text x y s p, Text x' y' s' p' =>
      within e x x' && within e y y' && String.eqb s s' && text_props_eqb p p'
  | Line2D xs ys c lw cap, Line2D xs' ys' c' lw' cap' =>
      close_list e xs xs' && close_list e ys ys' &&
      String.eqb c c' && within e lw lw' && String.eqb cap cap'
  | Annotation s xy xt st c lw, Annotation s' xy' xt' st' c' lw' =>
      String.eqb s s' && close_point e xy xy' && close_point e xt xt' &&
      String.eqb st st' && String.eqb c c' && within e lw lw'
  | _, _ => false
  end.

Fixpoint close_axes (e : Q) (ax bx : Axes) : bool :=
  match ax, bx with
  | [], [] => true
  | a :: ax', b :: bx' => close_artist e a b && close_axes e ax' bx'
  | _, _ => false
  end.

(** ** Where connectors start and end, up to rounding *)

(** The rule of C3 up to [e]. *)
Definition near_earlier_shape_or_anchor (e : Q) (ax : Axes) : rule :=
  fun placed _ _ p =>
    existsb (fun b => in_box p (widen e b)) placed ||
    existsb (close_point e p) (anchors ax).

(** What the pictures satisfy: within [e] of a shape placed earlier, or
    strictly under one within its horizontal extent, or, for an arrow patch
    of the main flow, within [e] of the shape that is placed next. *)
Definition on_or_under_shape (e : Q) : rule :=
  fun placed a rest p =>
    existsb (fun b => in_box p (widen e b)) placed ||
    existsb (under_box p) placed ||
    match a, pick extent rest with
    | FancyArrowPatch _ _ _ _ _ _, b :: _ => in_box p (widen e b)
    | _, _ => false
    end.

(** ** The injection path and its targets *)

(** The disc of a circular marker: centre and radius. *)
Definition disc (a : artist) : option ((Q * Q) * Q) :=
  match a with
  | Circle c r _ _ _ _ => Some (c, r)
  | _ => None
  end.

(** Strictly outside the disc. *)
Definition outside_disc (p : Q * Q) (d : (Q * Q) * Q) : bool :=
  Qlt_bool (snd d * snd d)
           ((fst p - fst (fst d)) * (fst p - fst (fst d)) +
            (snd p - snd (fst d)) * (snd p - snd (fst d))).

(** The reading of the second half of C9: the tip of every riser of the
    injection path is on its target, the concat marker or the output
    block, even when the frame of a block is taken with the padding of
    its box style. *)
Definition risers_reach_targets (ax : Axes) : Prop :=
  exists out,
    block_titled "Prediction" ax = Some out /\
    forall s, In s (pick (riser COLORS["concat"]) ax) ->
      existsb (fun d => negb (outside_disc (snd s) d)) (pick disc ax) = true \/
      in_box (snd s) (widen 0.02 (frame out)) = true.


(** ** Blocks as specified *)

(** The block [_draw_block x y w h title subtitle] is meant to leave: the
    rectangle centred on the anchor, and the texts of the two cases. *)
Definition centred_box (x y w h : Q) : box :=
  mk_box (x - w / 2) (y - h / 2) (x + w / 2) (y + h / 2).

Definition specified_block (x y w h : Q) (t : string) (sub : option string) : block :=
  match sub with
  | Some s => mk_block (centred_box x y w h) (x, y + 0.15) t (Some (x, y - 0.2, s))
  | None => mk_block (centred_box x y w h) (x, y) t None
  end.

Definition close_block (e : Q) (a b : block) : bool :=
  close_box e (frame a) (frame b) &&
  close_point e (title_at a) (title_at b) &&
  String.eqb (title a) (title b) &&
  option_eqb (fun s s' => close_point e (fst s) (fst s') && String.eqb (snd s) (snd s'))
             (subtitle_of a) (subtitle_of b).

Fixpoint close_blocks (e : Q) (l m : list block) : bool :=
  match l, m with
  | [], [] => true
  | a :: l', b :: m' => close_block e a b && close_blocks e l' m'
  | _, _ => false
  end.

(** The six [_draw_block] calls of a generator, by their arguments;
    [residual] is the subtitle of the Residual block. *)
Definition block_calls (residual : string) : list block :=
  [ specified_block 1.0 3.5 1.4 1.0 "Input" (Some ("H×W" ++ nl ++ "3 ch")%string);
    specified_block 2.8 3.5 1.4 1.0 "Projection"
      (Some ("Conv2d, ReLU" ++ nl ++ "3→128 ch")%string);
    specified_block 6.5 3.5 1.1 0.8 "Conv" (Some "131→128 ch"%string);
    specified_block 8.0 3.5 1.0 0.8 "Residual" (Some residual);
    specified_block 10.6 3.5 1.4 1.0 "Head"
      (Some ("3× Conv2d" ++ nl ++ "128→32→8→2 ch")%string);
    specified_block 12.4 3.5 1.4 1.0 "Prediction"
      (Some ("Argmax" ++ nl ++ "H×W, 2 cls")%string) ].

(** ** The arrows of the main flow, up to rounding *)

(** Each pair of neighbouring shapes is joined by one arrow: from the right
    edge of the left shape at centre height, horizontally to the right, to
    the left edge of the right shape or at most 0.05 before it. *)
Fixpoint joined (e : Q) (shapes : list box) (arrows : list ((Q * Q) * (Q * Q))) : bool :=
  match shapes, arrows with
  | [_], [] => true
  | s :: ((t :: _) as rest), (a, b) :: more =>
      within e (fst a) (xmax s) && within e (snd a) (snd (center s)) &&
      Qeq_bool (snd b) (snd a) && Qlt_bool (fst a) (fst b) &&
      Qle_bool (xmin t - 0.05 - e) (fst b) && Qle_bool (fst b) (xmin t + e) &&
      joined e rest more
  | _, _ => false
  end.

(** * Lemmas and theorems *)

(** Closed facts about the two fixed pictures are settled by evaluating
    both sides. *)
Ltac by_evaluation := vm_compute; repeat split; try discriminate.

(** ** The two readings of the coordinates *)

(** X18.  The pictures computed on doubles are the pictures of the decimal
    reading, artist by artist and in the same order: same kinds, same
    strings, colours and styles, and every coordinate, size and line width
    within [1e-14] of the decimal value.  On doubles, too, the ITNet
    picture is the DTNet picture with the three strings replaced. *)
Theorem doubles_agree_with_decimals :
  close_axes 0.00000000000001 dt_axes Doubles.dt_axes = true /\
  close_axes 0.00000000000001 it_axes Doubles.it_axes = true /\
  Doubles.it_axes = map relabel Doubles.dt_axes.
Proof. by_evaluation. Qed.

(** X19.  On doubles as in the decimal reading, every artist of both
    figures is placed inside the data rectangle set by [set_xlim(0, 14)]
    and [set_ylim(1, 6)], and the elements are emitted in the same order. *)
Theorem doubles_pictures_within_view :
  within_view Doubles.dt_net_figure = true /\
  within_view Doubles.it_net_figure = true /\
  emission_order Doubles.dt_axes = emission_order dt_axes /\
  emission_order Doubles.it_axes = emission_order it_axes.
Proof. by_evaluation. Qed.

(** ** Properties of [_draw_block] *)

Lemma rect_centered (x y w h : Q) :
  let b := rect (x - w / 2, y - h / 2) w h in
  xmin b == x - w / 2 /\ xmax b == x + w / 2 /\
  ymin b == y - h / 2 /\ ymax b == y + h / 2 /\
  fst (center b) == x /\ snd (center b) == y.
Proof.
  unfold rect, center; simpl.
  repeat split; try reflexivity; field.
Qed.

(** C10, refuted as stated: on doubles the right edge of the rectangle is
    its left edge plus the width, and that need not be [x + w/2].  For the
    Projection block of the pictures ([x = 2.8], [w = 1.4]) the left edge
    is the double [2.8 - 1.4/2], but the right edge is strictly left of
    the double [2.8 + 1.4/2], which is 3.5, whether the width is added
    exactly or on doubles, and the centre of the rectangle is strictly left
    of the anchor. *)
Lemma block_right_edge_rounded :
  exists patch title subtitle b,
    Doubles._draw_block 2.8 3.5 1.4 1.0 "Projection"
      (Some ("Conv2d, ReLU" ++ nl ++ "3→128 ch")%string) COLORS["projection"] []
      = [patch; title; subtitle] /\
    extent patch = Some b /\
    xmin b == exact (2.8 - 1.4 / 2) /\
    xmax b < exact (2.8 + 1.4 / 2) /\
    exact (2.8 + 1.4 / 2) == 3.5 /\
    (2.8 - 1.4 / 2 + 1.4 <? 2.8 + 1.4 / 2)%float = true /\
    fst (center b) < exact 2.8.
Proof.
  do 4 eexists. split; [reflexivity|]. split; [reflexivity|]. by_evaluation.
Qed.

(** C10, amended.  [_draw_block] with anchor [(x, y)], width [w] and height
    [h] adds, after what is on the axes, one rectangle and its texts.  The
    rectangle has its lower left corner at [(x - w/2, y - h/2)], as
    computed, and the width and height given.  Without a subtitle ([None],
    or the empty string, which Python also takes as false) the only text
    is the title at [(x, y)]; with a non-empty subtitle the title is at
    [(x, y + 0.15)] and the subtitle at [(x, y - 0.2)].  This holds on
    doubles and in the decimal reading.  In exact arithmetic the rectangle
    spans [x - w/2, x + w/2] by [y - h/2, y + h/2] and its centre is the
    anchor; on doubles this holds up to rounding: the six blocks of each
    picture are, within [1e-9], the blocks specified by the arguments of
    their calls. *)
Theorem draw_block_frame_and_texts :
  (forall (x y w h : float) (t c : string) (ax : Axes),
     let patch := Doubles.FancyBboxPatch ((x - w / 2)%float, (y - h / 2)%float) w h
                    "round,pad=0.02,rounding_size=0.1" c "#424242" 2.5%float None in
     let bold := centered 13 (Some "bold"%string) None (Some COLORS["text"]) None None in
     let gray := centered 10 None None (Some COLORS["gray"]) None None in
     Doubles._draw_block x y w h t None c ax =
       ax ++ [patch; Doubles.Text x y t bold] /\
     Doubles._draw_block x y w h t (Some ""%string) c ax =
       ax ++ [patch; Doubles.Text x y t bold] /\
     forall a s,
       Doubles._draw_block x y w h t (Some (String a s)) c ax =
         ax ++ [patch; Doubles.Text x (y + 0.15)%float t bold;
                Doubles.Text x (y - 0.2)%float (String a s) gray]) /\
  (forall (x y w h : Q) (t c : string) (ax : Axes),
     let patch := FancyBboxPatch (x - w / 2, y - h / 2) w h
                    "round,pad=0.02,rounding_size=0.1" c "#424242" 2.5 None in
     let bold := centered 13 (Some "bold"%string) None (Some COLORS["text"]) None None in
     let gray := centered 10 None None (Some COLORS["gray"]) None None in
     _draw_block x y w h t None c ax = ax ++ [patch; Text x y t bold] /\
     _draw_block x y w h t (Some ""%string) c ax = ax ++ [patch; Text x y t bold] /\
     (forall a s,
        _draw_block x y w h t (Some (String a s)) c ax =
          ax ++ [patch; Text x (y + 0.15) t bold; Text x (y - 0.2) (String a s) gray]) /\
     exists b,
       extent patch = Some b /\
       xmin b == x - w / 2 /\ xmax b == x + w / 2 /\
       ymin b == y - h / 2 /\ ymax b == y + h / 2 /\
       fst (center b) == x /\ snd (center b) == y) /\
  close_blocks 0 (read_blocks dt_axes) (block_calls "2× ResBlock") = true /\
  close_blocks 0 (read_blocks it_axes) (block_calls "4× ResBlock") = true /\
  close_blocks rounding (read_blocks Doubles.dt_axes) (block_calls "2× ResBlock") = true /\
  close_blocks rounding (read_blocks Doubles.it_axes) (block_calls "4× ResBlock") = true.
Proof.
  split; [|split; [|by_evaluation]].
  - intros x y w h t c ax patch bold gray.
    unfold Doubles._draw_block, seq, add_patch, Doubles.ax_text; cbn [truthy str_of].
    repeat split; intros; cbn [String.eqb negb]; rewrite <- ?app_assoc; reflexivity.
  - intros x y w h t c ax patch bold gray.
    unfold _draw_block, seq, add_patch, ax_text; cbn [truthy str_of].
    split; [|split; [|split]]; intros; cbn [String.eqb negb];
      rewrite <- ?app_assoc; try reflexivity.
    exists (rect (x - w / 2, y - h / 2) w h).
    split; [reflexivity | apply rect_centered].
Qed.

(** ** Routing of the two long connectors *)

Lemma dt_feedback_not_below_region : ~ feedback_below_region dt_axes.
Proof.
  intro H.
  pose proof (H (3.5 - 2.2 / 2 + 0.15) (rect (6.8 - 5.2 / 2, 3.5 - 2.2 / 2) 5.2 2.2)
                (or_introl eq_refl) (or_introl eq_refl)) as C.
  vm_compute in C. discriminate C.
Qed.

(** C2, refuted as stated: in the DTNet picture the horizontal run of the
    feedback loop is at 2.55 and the bottom edge of the recurrent region at
    2.4, so the run is not under that edge. *)
Lemma feedback_run_above_region_bottom :
  exists ly r,
    In ly (pick (horizontal_at COLORS["recur"]) dt_axes) /\
    In r (regions dt_axes) /\
    ly == 2.55 /\ ymin r == 2.4 /\ ymin r < ly.
Proof.
  exists (3.5 - 2.2 / 2 + 0.15), (rect (6.8 - 5.2 / 2, 3.5 - 2.2 / 2) 5.2 2.2).
  split; [left; reflexivity | ].
  split; [left; reflexivity | ].
  by_evaluation.
Qed.

(** C2, amended: in both pictures the horizontal run of the feedback loop
    lies inside the recurrent region, 0.15 above its bottom edge (so
    strictly above that edge and strictly under the top edge), the whole
    loop stays within the region, and the run is strictly under the bottom
    edge of every block and of the concat marker. *)
Theorem feedback_loop_inside_region :
  feedback_inside_region dt_axes /\ feedback_inside_region it_axes.
Proof.
  split; unfold feedback_inside_region;
    do 2 eexists;
    (split; [ vm_compute; reflexivity | ]);
    (split; [ vm_compute; reflexivity | ]);
    (split; [ vm_compute; reflexivity | ]);
    (split; [ vm_compute; reflexivity | ]);
    (split; [ vm_compute; reflexivity | ]);
    (split; [ vm_compute; repeat constructor | vm_compute; repeat constructor ]).
Qed.

Lemma second_riser_in (ax : Axes) (c : string) (d : (Q * Q) * (Q * Q)) :
  length (pick (riser c) ax) = 2%nat ->
  In (nth 1 (pick (riser c) ax) d) (pick (riser c) ax).
Proof. intros L. apply nth_In. rewrite L. lia. Qed.

Lemma risers_do_not_reach_targets :
  ~ risers_reach_targets dt_axes /\ ~ risers_reach_targets Doubles.dt_axes.
Proof.
  split; intros (out & B & K);
    vm_compute in B; inversion B; subst out; clear B;
    match type of K with
    | forall s, In s (pick (riser ?c) ?ax) -> _ =>
        pose proof (K _ (second_riser_in ax c ((0, 0), (0, 0)) eq_refl)) as C
    end;
    destruct C as [C|C]; vm_compute in C; discriminate C.
Qed.



(** The same comparisons on doubles: the feedback run is above the bottom
    edge of the recurrent region and under its top edge and under the inner
    blocks; the injection run is under the region and under all blocks; the
    risers end at or under the edges they reach. *)
Lemma routing_offsets_binary64 :
  (Binary64.region_bottom <? Binary64.loop_y_bottom)%float = true /\
  (Binary64.loop_y_bottom <? Binary64.region_top)%float = true /\
  (Binary64.loop_y_bottom <? Binary64.residual_bottom)%float = true /\
  (Binary64.residual_bottom <? Binary64.inner_block_bottom)%float = true /\
  (Binary64.inject_y <? Binary64.region_bottom)%float = true /\
  (Binary64.inject_y <? Binary64.output_bottom)%float = true /\
  (Binary64.output_bottom <? Binary64.block_bottom)%float = true /\
  (Binary64.input_bottom <? Binary64.block_bottom)%float = true /\
  (Binary64.inject_y <? Binary64.marker_bottom)%float = true.
Proof. vm_compute. repeat split. Qed.

(** ** Where connectors start and end: results *)

Lemma dt_endpoints_not_grounded :
  ~ endpoints_grounded dt_axes /\ ~ endpoints_grounded Doubles.dt_axes.
Proof.
  split; unfold endpoints_grounded; vm_compute; discriminate.
Qed.

(** C3, refuted as stated: in the DTNet picture the injection path runs at
    height 1.7, under every shape.  Its endpoint [(1.0, 1.7)] is rejected by
    the rule of the claim: it is on no shape of the picture, placed earlier
    or later, and it is no anchor.  On doubles the same holds, even when
    every shape is taken with a margin for rounding. *)
Lemma injection_run_off_every_shape :
  (exists p,
      In p (strays (on_earlier_shape_or_anchor dt_axes) [] dt_axes) /\
      same_point p (1.0, 1.7) = true /\
      existsb (in_box p) (pick extent dt_axes) = false /\
      existsb (same_point p) (anchors dt_axes) = false) /\
  (exists p,
      In p (strays (on_earlier_shape_or_anchor Doubles.dt_axes) [] Doubles.dt_axes) /\
      close_point rounding p (1.0, 1.7) = true /\
      existsb (fun b => in_box p (widen rounding b)) (pick extent Doubles.dt_axes) = false /\
      existsb (close_point rounding p) (anchors Doubles.dt_axes) = false).
Proof.
  split.
  - exists (1.0, 3.5 - 1.8).
    split; [ vm_compute; do 2 right; left; reflexivity | by_evaluation ].
  - eexists.
    split; [ vm_compute; do 3 right; left; reflexivity | by_evaluation ].
Qed.

(** C3, amended.  In both pictures every connector endpoint lies on the
    extent of a shape placed earlier, or strictly under such a shape within
    its horizontal extent, or, for a main-flow arrow, on the extent of the
    shape placed next; exactly so in the decimal reading, and within
    [1e-9] of the extent on doubles, where an arrow can start a rounding
    error off the edge it leaves.  The endpoints that need the second or
    third case are the head of the Input -> Projection arrow (on the left
    edge of the Projection block, which is drawn right after the arrow) and
    seven points of the injection path. *)
Theorem connector_endpoints_on_or_under_shapes :
  strays (on_or_under_shape 0) [] dt_axes = [] /\
  strays (on_or_under_shape 0) [] it_axes = [] /\
  strays (on_or_under_shape rounding) [] Doubles.dt_axes = [] /\
  strays (on_or_under_shape rounding) [] Doubles.it_axes = [] /\
  close_points 0 (strays (near_earlier_shape_or_anchor 0 dt_axes) [] dt_axes)
               off_shape_points = true /\
  close_points 0 (strays (near_earlier_shape_or_anchor 0 it_axes) [] it_axes)
               off_shape_points = true /\
  close_points rounding
    (strays (near_earlier_shape_or_anchor rounding Doubles.dt_axes) [] Doubles.dt_axes)
    off_shape_points = true /\
  close_points rounding
    (strays (near_earlier_shape_or_anchor rounding Doubles.it_axes) [] Doubles.it_axes)
    off_shape_points = true.
Proof. by_evaluation. Qed.

(** ** Order of emission: result *)

(** C5.  In both pictures the elements are emitted in the order title,
    input block, projection block, recurrent region, concat marker, conv
    block, residual block, feedback loop, head block, output block,
    injection path, annotation labels.  The straight arrows of the main
    flow, which that list does not name, are emitted in between; the order
    including them is the second list. *)
Theorem elements_emitted_in_order :
  let listed :=
    [TitleText; InputBlock; ProjectionBlock; RecurrentRegion; ConcatMarker;
     ConvBlock; ResidualBlock; FeedbackLoop; HeadBlock; OutputBlock;
     InjectionPath; AnnotationLabels] in
  let with_arrows :=
    [TitleText; InputBlock; FlowArrow; ProjectionBlock; RecurrentRegion;
     ConcatMarker; FlowArrow; ConvBlock; FlowArrow; ResidualBlock;
     FeedbackLoop; HeadBlock; FlowArrow; OutputBlock; FlowArrow;
     InjectionPath; AnnotationLabels] in
  element_order dt_axes = listed /\ element_order it_axes = listed /\
  emission_order dt_axes = with_arrows /\ emission_order it_axes = with_arrows.
Proof. by_evaluation. Qed.

(** ** The two pictures compared: result *)

(** C8.  The ITNet picture is the DTNet picture, artist by artist and in
    the same order, with three strings replaced: the title, the label of
    the recurrent region (the ITNet one names the convergence criterion, the
    DTNet one does not) and the subtitle of the residual block.  Positions,
    sizes, colours, connector points and the figure settings are equal. *)
Theorem pictures_differ_in_three_strings :
  it_axes = map relabel dt_axes /\
  pick relabelled dt_axes =
    [ ("DTNet", "ITNet");
      (dt_recurrent_label, it_recurrent_label);
      ("2× ResBlock", "4× ResBlock") ]%string /\
  contains convergence_criterion dt_recurrent_label = false /\
  contains convergence_criterion it_recurrent_label = true /\
  it_net_figure =
    mk_figure (figsize dt_net_figure) (xlim dt_net_figure) (ylim dt_net_figure)
              (aspect dt_net_figure) (axis_on dt_net_figure)
              (map relabel (artists dt_net_figure)).
Proof. by_evaluation. Qed.

(** ** The file system: basic facts *)

Lemma path_eqb_eq (p q : Path) : path_eqb p q = true <-> p = q.
Proof.
  revert q; induction p as [|c p IH]; intros [|d q]; simpl;
    try (split; [discriminate | discriminate]); try tauto.
  rewrite andb_true_iff, String.eqb_eq, IH.
  split; [intros [-> ->]; reflexivity | intros H; inversion H; auto].
Qed.

Lemma path_eqb_refl (p : Path) : path_eqb p p = true.
Proof. apply path_eqb_eq; reflexivity. Qed.

Lemma lookup_update_same (fs : FileSystem) (p : Path) (n : node) :
  p <> [] -> lookup (update fs p n) p = Some n.
Proof.
  intros Hp. destruct p as [|c p]; [congruence|].
  unfold lookup, update. now rewrite path_eqb_refl.
Qed.

Lemma lookup_update_other (fs : FileSystem) (p q : Path) (n : node) :
  q <> p -> lookup (update fs p n) q = lookup fs q.
Proof.
  intros Hq. destruct q as [|c q]; [reflexivity|].
  unfold lookup, update.
  destruct (path_eqb (c :: q) p) eqn:E; [|reflexivity].
  apply path_eqb_eq in E; congruence.
Qed.

Lemma is_dir_lookup (fs : FileSystem) (p : Path) :
  is_dir fs p = true <-> lookup fs p = Some Dir.
Proof.
  unfold is_dir. destruct (lookup fs p) as [[|d]|]; split; congruence.
Qed.

Lemma above_parent (q p : Path) : above q (parent p) -> above q p.
Proof.
  intros [pre E]. destruct p as [|c p]; simpl in E.
  - exists pre; exact E.
  - exists (c :: pre); simpl; now rewrite E.
Qed.

Lemma above_self (p : Path) : above p p.
Proof. now exists []. Qed.

Lemma not_above_parent (p : Path) : p <> [] -> ~ above p (parent p).
Proof.
  intros Hp [pre E]. destruct p as [|c p]; [congruence|]. simpl in E.
  apply (f_equal (@length string)) in E.
  rewrite length_app in E; simpl in E. lia.
Qed.

(** ** [Path.mkdir(parents=True, exist_ok=True)] *)

Lemma os_mkdir_creates (fs fs' : FileSystem) (p : Path) :
  os_mkdir fs p = inr fs' ->
  fs' = update fs p Dir /\ lookup fs p = None /\ p <> [].
Proof.
  unfold os_mkdir. destruct (lookup fs p) as [n|] eqn:E; [discriminate|].
  destruct (lookup fs (parent p)) as [[|d]|]; try discriminate.
  intros H; inversion H; subst. repeat split.
  intros ->; discriminate E.
Qed.

(** On an existing directory the call changes nothing and returns. *)
Lemma mkdir_existing_dir (fs : FileSystem) (p : Path) :
  is_dir fs p = true -> Path_mkdir p fs = Ok fs.
Proof.
  intros H. destruct p as [|c p]; [reflexivity|].
  assert (L : lookup fs (c :: p) = Some Dir) by now apply is_dir_lookup.
  cbn [Path_mkdir]. unfold os_mkdir. now rewrite L, H.
Qed.

(** After a normal return the path is a directory. *)
Lemma mkdir_returns_dir (fs fs' : FileSystem) (p : Path) :
  Path_mkdir p fs = Ok fs' -> is_dir fs' p = true.
Proof.
  assert (created : forall f f', os_mkdir f p = inr f' -> is_dir f' p = true).
  { intros f f' H. apply os_mkdir_creates in H as (-> & _ & Hp).
    apply is_dir_lookup, lookup_update_same, Hp. }
  destruct p as [|c p]; simpl.
  - intros H; inversion H; reflexivity.
  - destruct (os_mkdir fs (c :: p)) as [[]|f] eqn:E;
      try (destruct (is_dir fs (c :: p)) eqn:D; [|discriminate];
           intros H; inversion H; subst; exact D).
    + destruct (Path_mkdir p fs) as [f1|e f1]; [|discriminate].
      destruct (os_mkdir f1 (c :: p)) as [[]|f2] eqn:E2; try discriminate;
        try (destruct (is_dir f1 (c :: p)) eqn:D; [|discriminate];
             intros H; inversion H; subst; exact D).
      intros H; inversion H; subst; eauto.
    + intros H; inversion H; subst; eauto.
Qed.

Lemma grown_refl (p : Path) (fs : FileSystem) : grown_along p fs fs.
Proof. intros q; now left. Qed.

Lemma grown_update (p : Path) (fs : FileSystem) :
  lookup fs p = None -> grown_along p fs (update fs p Dir).
Proof.
  intros L q. destruct (path_eqb q p) eqn:E.
  - apply path_eqb_eq in E; subst q. right.
    repeat split; [exact L | | apply above_self].
    apply lookup_update_same. intros ->; discriminate L.
  - left. apply lookup_update_other. intros ->.
    rewrite path_eqb_refl in E; discriminate.
Qed.

Lemma grown_trans (p : Path) (f0 f1 f2 : FileSystem) :
  grown_along (parent p) f0 f1 -> grown_along p f1 f2 -> grown_along p f0 f2.
Proof.
  intros G1 G2 q.
  destruct (G2 q) as [E2|(N2 & D2 & A2)], (G1 q) as [E1|(N1 & D1 & A1)].
  - left; congruence.
  - right; repeat split; [exact N1 | congruence | now apply above_parent].
  - right; repeat split; [congruence | exact D2 | exact A2].
  - congruence.
Qed.

Lemma mkdir_grows (p : Path) (fs : FileSystem) :
  grown_along p fs (state_of (Path_mkdir p fs)).
Proof.
  revert fs; induction p as [|c p IH]; intros fs; simpl.
  - apply grown_refl.
  - destruct (os_mkdir fs (c :: p)) as [[]|f] eqn:E; simpl;
      try (destruct (is_dir fs (c :: p)); simpl; apply grown_refl).
    + specialize (IH fs).
      destruct (Path_mkdir p fs) as [f1|e f1]; simpl in *.
      * destruct (os_mkdir f1 (c :: p)) as [[]|f2] eqn:E2; simpl;
          try (destruct (is_dir f1 (c :: p)); simpl);
          try (apply (grown_trans (c :: p) fs f1 f1); [exact IH | apply grown_refl]);
          apply os_mkdir_creates in E2 as (-> & L & _);
          (apply (grown_trans (c :: p) fs f1); [exact IH | now apply grown_update]).
      * apply (grown_trans (c :: p) fs f1 f1); [exact IH | apply grown_refl].
    + apply os_mkdir_creates in E as (-> & L & _). now apply grown_update.
Qed.

Lemma no_file_on_dir_or_absent (fs : FileSystem) (p : Path) :
  no_file_on fs p = true -> lookup fs p = Some Dir \/ lookup fs p = None.
Proof.
  destruct p as [|c p]; [now left|].
  cbn [no_file_on]. destruct (lookup fs (c :: p)) as [[|d]|]; auto; discriminate.
Qed.

Lemma mkdir_succeeds (p : Path) (fs : FileSystem) :
  no_file_on fs p = true -> exists fs', Path_mkdir p fs = Ok fs'.
Proof.
  revert fs; induction p as [|c p IH]; intros fs H.
  - exists fs; reflexivity.
  - pose proof (no_file_on_dir_or_absent _ _ H) as [L|L].
    + exists fs. apply mkdir_existing_dir. now apply is_dir_lookup.
    + assert (Hup : no_file_on fs p = true).
      { cbn [no_file_on] in H. now rewrite L in H. }
      cbn [Path_mkdir]. unfold os_mkdir at 1. rewrite L. cbn [parent tl].
      destruct (no_file_on_dir_or_absent _ _ Hup) as [U|U]; rewrite U.
      * eexists; reflexivity.
      * destruct (IH fs Hup) as [f1 E1]. rewrite E1.
        pose proof (mkdir_returns_dir _ _ _ E1) as D1.
        apply is_dir_lookup in D1.
        pose proof (mkdir_grows p fs) as G. rewrite E1 in G. cbn [state_of] in G.
        unfold os_mkdir. cbn [parent tl].
        destruct (G (c :: p)) as [Q|(_ & Q & _)]; rewrite Q.
        -- rewrite L, D1. eexists; reflexivity.
        -- exists f1. unfold is_dir. now rewrite Q.
Qed.

(** ** The generators: what they write and when they succeed *)

Lemma generate_dt_net_diagram_emit (p : Path) :
  generate_dt_net_diagram p = emit dt_net_figure p.
Proof. reflexivity. Qed.

Lemma generate_it_net_diagram_emit (p : Path) :
  generate_it_net_diagram p = emit it_net_figure p.
Proof. reflexivity. Qed.

Lemma generators_emit (g : Path -> action) :
  In g generators ->
  exists f, (f = dt_net_figure \/ f = it_net_figure) /\ forall p, g p = emit f p.
Proof.
  intros [<-|[<-|[]]]; eexists; (split; [|intros p; reflexivity]); auto.
Qed.

(** A generator is [store] at the target [savefig] settles on, or ends
    with [ValueError] once the directory is made. *)
Lemma emit_known (f : Figure) (p t : Path) (format : string) :
  print_target p = Some (t, format) ->
  emit f p = store (mk_document f "tight" "white" format) t p.
Proof.
  intros T. unfold emit, store, savefig. now rewrite T.
Qed.

Lemma emit_pdf (f : Figure) (p : Path) :
  pdf_path p -> emit f p = store (saved f) p p.
Proof. apply emit_known. Qed.

Lemma emit_unknown (f : Figure) (p : Path) (w : World) :
  print_target p = None ->
  emit f p w =
    match Path_mkdir (parent p) (fs w) with
    | Ok fs' => Raise ValueError (mk_world fs' (stdout w))
    | Raise e fs' => Raise e (mk_world fs' (stdout w))
    end.
Proof.
  intros T. unfold emit, savefig, and_then, on_fs. rewrite T.
  destruct (Path_mkdir (parent p) (fs w)); reflexivity.
Qed.

Lemma targets_are_pdf (file : Path) :
  pdf_path (dt_target file) /\ pdf_path (it_target file).
Proof. split; reflexivity. Qed.

Lemma pdf_path_not_anchor (p : Path) : pdf_path p -> p <> [].
Proof. intros H ->. discriminate H. Qed.

Lemma write_file_ok (d : Document) (p : Path) (fs fs' : FileSystem) :
  write_file d p fs = Ok fs' -> fs' = update fs p (File d) /\ p <> [].
Proof.
  unfold write_file.
  destruct p as [|c p]; [discriminate|].
  destruct (lookup fs (c :: p)) as [[|d0]|];
    try discriminate;
    destruct (lookup fs (parent (c :: p))) as [[|d1]|]; try discriminate;
    intros H; inversion H; split; congruence.
Qed.

Lemma write_file_raise (d : Document) (p : Path) (fs fs' : FileSystem) (e : Exception) :
  write_file d p fs = Raise e fs' -> fs' = fs.
Proof.
  unfold write_file.
  destruct (lookup fs p) as [[|d0]|];
    try (intros H; inversion H; reflexivity);
    destruct (lookup fs (parent p)) as [[|d1]|]; try discriminate;
    intros H; inversion H; reflexivity.
Qed.

Lemma write_file_raise_cases (d : Document) (p : Path) (fs fs' : FileSystem) (e : Exception) :
  write_file d p fs = Raise e fs' ->
  (e = IsADirectoryError /\ is_dir fs p = true) \/ is_dir fs (parent p) = false.
Proof.
  unfold write_file, is_dir.
  destruct (lookup fs p) as [[|d0]|];
    try (intros H; inversion H; left; split; reflexivity);
    destruct (lookup fs (parent p)) as [[|d1]|]; try discriminate;
    intros _; right; reflexivity.
Qed.

(** [store] that returns has stored the document at the target. *)
Lemma store_ok_writes (d : Document) (t p : Path) (w w' : World) :
  store d t p w = Ok w' -> lookup (fs w') t = Some (File d).
Proof.
  unfold store, and_then, on_fs, print.
  destruct (Path_mkdir (parent p) (fs w)) as [f1|e f1]; [|discriminate].
  cbn [fs stdout].
  destruct (write_file d t f1) as [f2|e f2] eqn:W; [|discriminate].
  intros H; inversion H; subst; cbn [fs].
  apply write_file_ok in W as [-> Hp]. now apply lookup_update_same.
Qed.

Lemma store_ok_stdout (d : Document) (t p : Path) (w w' : World) :
  store d t p w = Ok w' -> stdout w' = stdout w ++ [("Saved: " ++ str p)%string].
Proof.
  unfold store, and_then, on_fs, print.
  destruct (Path_mkdir (parent p) (fs w)) as [f1|e f1]; [|discriminate].
  cbn [fs stdout].
  destruct (write_file d t f1) as [f2|e f2]; [|discriminate].
  intros H; inversion H; reflexivity.
Qed.

(** [store] that raises has at most added directories above the output
    path, and printed nothing. *)
Lemma store_raise_grows (d : Document) (t p : Path) (w w' : World) (e : Exception) :
  store d t p w = Raise e w' ->
  grown_along (parent p) (fs w) (fs w') /\ stdout w' = stdout w.
Proof.
  unfold store, and_then, on_fs, print.
  pose proof (mkdir_grows (parent p) (fs w)) as G.
  destruct (Path_mkdir (parent p) (fs w)) as [f1|e1 f1]; cbn [state_of] in G.
  - cbn [fs stdout].
    destruct (write_file d t f1) as [f2|e2 f2] eqn:W; [discriminate|].
    intros H; inversion H; subst; cbn [fs stdout].
    apply write_file_raise in W; subst. split; [exact G|reflexivity].
  - intros H; inversion H; subst; cbn [fs stdout]. split; [exact G|reflexivity].
Qed.

Lemma emit_raise_grows (f : Figure) (p : Path) (w w' : World) (e : Exception) :
  emit f p w = Raise e w' ->
  grown_along (parent p) (fs w) (fs w') /\ stdout w' = stdout w.
Proof.
  destruct (print_target p) as [[t format]|] eqn:T.
  - rewrite (emit_known f p t format T). apply store_raise_grows.
  - rewrite (emit_unknown f p w T).
    pose proof (mkdir_grows (parent p) (fs w)) as G.
    destruct (Path_mkdir (parent p) (fs w)) as [f1|e1 f1]; cbn [state_of] in G;
      intros H; inversion H; subst; cbn [fs stdout]; split; auto.
Qed.

Lemma store_with_parent (d : Document) (t p : Path) (w : World) :
  is_dir (fs w) (parent p) = true -> parent t = parent p -> is_dir (fs w) t = false ->
  store d t p w =
    Ok (mk_world (update (fs w) t (File d))
                 (stdout w ++ [("Saved: " ++ str p)%string])).
Proof.
  intros Dup Pt Np. unfold store, and_then, on_fs, print.
  rewrite (mkdir_existing_dir _ _ Dup). cbn [fs stdout].
  unfold write_file. rewrite Pt. apply is_dir_lookup in Dup. rewrite Dup.
  unfold is_dir in Np. destruct (lookup (fs w) t) as [[|d0]|]; [discriminate| |]; reflexivity.
Qed.

Lemma store_succeeds (d : Document) (t p : Path) (w : World) :
  no_file_on (fs w) (parent p) = true -> parent t = parent p -> is_dir (fs w) t = false ->
  exists w', store d t p w = Ok w'.
Proof.
  intros Hup Pt Hp.
  destruct (mkdir_succeeds _ _ Hup) as [f1 E1].
  pose proof (mkdir_returns_dir _ _ _ E1) as D1. apply is_dir_lookup in D1.
  pose proof (mkdir_grows (parent p) (fs w)) as G. rewrite E1 in G. cbn [state_of] in G.
  assert (Hne : t <> []) by (intros ->; discriminate Hp).
  assert (L1 : lookup f1 t <> Some Dir).
  { destruct (G t) as [Q|(_ & _ & A)].
    - rewrite Q. intros C. apply is_dir_lookup in C. congruence.
    - rewrite <- Pt in A. now apply not_above_parent in A. }
  unfold store, and_then, on_fs, print. rewrite E1. cbn [fs stdout].
  unfold write_file. rewrite Pt, D1.
  destruct (lookup f1 t) as [[|d0]|]; [congruence | |]; eexists; reflexivity.
Qed.

Lemma store_ok_parent_dir (d : Document) (t p : Path) (w w' : World) :
  parent t = parent p -> store d t p w = Ok w' ->
  is_dir (fs w') (parent p) = true /\ is_dir (fs w') t = false.
Proof.
  intros Pt H. pose proof (store_ok_writes _ _ _ _ _ H) as L.
  split; [|unfold is_dir; now rewrite L].
  revert H. unfold store, and_then, on_fs, print.
  destruct (Path_mkdir (parent p) (fs w)) as [f1|e f1] eqn:M; [|discriminate].
  cbn [fs stdout].
  destruct (write_file d t f1) as [f2|e f2] eqn:Wr; [|discriminate].
  intros H; inversion H; subst; cbn [fs].
  apply write_file_ok in Wr as [-> Hp].
  apply mkdir_returns_dir in M. apply is_dir_lookup.
  rewrite lookup_update_other; [now apply is_dir_lookup|].
  rewrite <- Pt. destruct t as [|c t]; [congruence|]. cbn [parent tl]. intros E.
  apply (f_equal (@length string)) in E. simpl in E. lia.
Qed.

Lemma store_frame (d : Document) (t p q : Path) (w : World) :
  q <> t ->
  lookup (fs (state_of (store d t p w))) q = lookup (fs w) q \/
  (lookup (fs w) q = None /\ lookup (fs (state_of (store d t p w))) q = Some Dir /\
   above q (parent p)).
Proof.
  intros Hq. destruct (store d t p w) as [w'|e w'] eqn:E; cbn [state_of].
  - revert E. unfold store, and_then, on_fs, print.
    pose proof (mkdir_grows (parent p) (fs w)) as G.
    destruct (Path_mkdir (parent p) (fs w)) as [f1|e f1] eqn:M; [|discriminate].
    cbn [state_of fs stdout] in *.
    destruct (write_file d t f1) as [f2|e f2] eqn:Wr; [|discriminate].
    intros H; inversion H; subst; cbn [fs].
    apply write_file_ok in Wr as [-> Hp].
    rewrite lookup_update_other by exact Hq. apply G.
  - apply (store_raise_grows _ _ _ _ _ _ E).
Qed.

Lemma store_on_directory (d : Document) (t p : Path) (w : World) :
  is_dir (fs w) (parent p) = true -> is_dir (fs w) t = true ->
  store d t p w = Raise IsADirectoryError w.
Proof.
  intros Dup Dp. unfold store, and_then, on_fs, print.
  rewrite (mkdir_existing_dir _ _ Dup). cbn [fs stdout].
  unfold write_file. apply is_dir_lookup in Dp. rewrite Dp. now destruct w.
Qed.

(** ** The directory-ensuring step: results *)

Lemma generators_start_with_ensure_directory (f : Figure) (p : Path) :
  emit f p =
    (ensure_directory p >> savefig f p "tight" "white" >>
     print ("Saved: " ++ str p)%string)%action.
Proof. reflexivity. Qed.

Lemma ensure_directory_ok_is_dir (p : Path) (w w' : World) :
  ensure_directory p w = Ok w' ->
  is_dir (fs w') (parent p) = true /\ stdout w' = stdout w.
Proof.
  unfold ensure_directory, on_fs.
  destruct (Path_mkdir (parent p) (fs w)) as [f1|e f1] eqn:E; [|discriminate].
  intros H; inversion H; subst; cbn [fs stdout].
  split; [now apply (mkdir_returns_dir (fs w))|reflexivity].
Qed.

Lemma ensure_directory_existing (p : Path) (w : World) :
  is_dir (fs w) (parent p) = true -> ensure_directory p w = Ok w.
Proof.
  intros H. unfold ensure_directory, on_fs.
  rewrite (mkdir_existing_dir _ _ H). now destruct w.
Qed.

(** C7.  When the parent directory of the output path exists, the
    directory-ensuring step returns without raising and leaves the world,
    and with it that directory, exactly as it was.  In any world, a second
    call after one that returned returns as well and changes nothing more. *)
Theorem ensure_directory_idempotent (p : Path) (w : World) :
  is_dir (fs w) (parent p) = true ->
  ensure_directory p w = Ok w /\
  (ensure_directory p >> ensure_directory p)%action w = ensure_directory p w /\
  forall w0 w1, ensure_directory p w0 = Ok w1 -> ensure_directory p w1 = Ok w1.
Proof.
  intros H.
  pose proof (ensure_directory_existing p w H) as E.
  split; [exact E|]. split.
  - unfold and_then. rewrite E. exact E.
  - intros w0 w1 H1. apply ensure_directory_existing.
    now apply (ensure_directory_ok_is_dir p w0).
Qed.

Lemma ensure_directory_idempotent_witness :
  ensure_directory ([] // "figs" // "dt.pdf") used_world = Ok used_world /\
  (ensure_directory ([] // "figs" // "dt.pdf") >>
   ensure_directory ([] // "figs" // "dt.pdf"))%action used_world
    = ensure_directory ([] // "figs" // "dt.pdf") used_world /\
  forall w0 w1,
    ensure_directory ([] // "figs" // "dt.pdf") w0 = Ok w1 ->
    ensure_directory ([] // "figs" // "dt.pdf") w1 = Ok w1.
Proof.
  apply (ensure_directory_idempotent ([] // "figs" // "dt.pdf") used_world).
  reflexivity.
Defined.

(** A first call that has to create the directory, followed by a second. *)
Example ensure_directory_twice_from_scratch :
  exists w1,
    ensure_directory out_dt fresh_world = Ok w1 /\
    is_dir (fs w1) ([] // "out") = true /\
    ensure_directory out_dt w1 = Ok w1.
Proof.
  eexists. split; [reflexivity|]. split; reflexivity.
Qed.

(** ** The entry point: results *)

Lemma main_runs_both (file : Path) :
  main file =
    (generate_dt_net_diagram (dt_target file) >>
     generate_it_net_diagram (it_target file))%action.
Proof. reflexivity. Qed.

(** C6, refuted as stated: with a directory in the place of the DTNet
    document, [generate_dt_net_diagram] raises [IsADirectoryError].
    [generate_it_net_diagram] would return from the state that is left, but
    the entry point never calls it: the run ends with the same exception and
    no ITNet document exists afterwards. *)
Lemma failure_of_first_stops_second :
  exists w1 w2,
    generate_dt_net_diagram (dt_target script) blocked_world
      = Raise IsADirectoryError w1 /\
    generate_it_net_diagram (it_target script) w1 = Ok w2 /\
    main script blocked_world = Raise IsADirectoryError w1 /\
    lookup (fs (state_of (main script blocked_world))) (it_target script) = None.
Proof.
  do 2 eexists.
  split; [reflexivity|]. split; [reflexivity|]. split; reflexivity.
Qed.

Lemma sibling_targets_differ (file : Path) : dt_target file <> it_target file.
Proof. unfold dt_target, it_target, joinpath. intros H; inversion H. Qed.

Lemma it_target_not_above_dir (file : Path) :
  ~ above (it_target file) (parent (dt_target file)).
Proof.
  change (parent (dt_target file)) with (parent (it_target file)).
  apply not_above_parent. discriminate.
Qed.

(** C6, amended.  When [generate_dt_net_diagram] raises, the entry point
    ends with that exception in the state the generator left, without
    calling [generate_it_net_diagram]: what is at the ITNet output path is
    what was there before the run.  When [generate_dt_net_diagram] returns
    and [generate_it_net_diagram] raises, the entry point ends with that
    exception and the DTNet document written before is still in place. *)
Theorem entry_point_stops_at_first_failure (file : Path) (w : World) :
  (forall e w1,
      generate_dt_net_diagram (dt_target file) w = Raise e w1 ->
      main file w = Raise e w1 /\
      lookup (fs w1) (it_target file) = lookup (fs w) (it_target file)) /\
  (forall w1 e w2,
      generate_dt_net_diagram (dt_target file) w = Ok w1 ->
      generate_it_net_diagram (it_target file) w1 = Raise e w2 ->
      main file w = Raise e w2 /\
      lookup (fs w2) (dt_target file) = Some (File (saved dt_net_figure))).
Proof.
  destruct (targets_are_pdf file) as [Pd Pi].
  split.
  - intros e w1 H. split.
    + rewrite main_runs_both. unfold and_then at 1. now rewrite H.
    + rewrite generate_dt_net_diagram_emit in H.
      destruct (emit_raise_grows _ _ _ _ _ H) as [G _].
      destruct (G (it_target file)) as [Q|(_ & _ & A)].
      * exact Q.
      * now apply it_target_not_above_dir in A.
  - intros w1 e w2 H1 H2. split.
    + rewrite main_runs_both. unfold and_then at 1. now rewrite H1.
    + rewrite generate_dt_net_diagram_emit, (emit_pdf _ _ Pd) in H1.
      apply store_ok_writes in H1.
      rewrite generate_it_net_diagram_emit in H2.
      destruct (emit_raise_grows _ _ _ _ _ H2) as [G _].
      destruct (G (dt_target file)) as [Q|(N & _ & _)].
      * now rewrite Q.
      * congruence.
Qed.

Lemma entry_point_stops_at_first_failure_witness :
  (main script blocked_world
     = Raise IsADirectoryError
         (state_of (generate_dt_net_diagram (dt_target script) blocked_world)) /\
   lookup (fs (state_of (generate_dt_net_diagram (dt_target script) blocked_world)))
          (it_target script)
     = lookup (fs blocked_world) (it_target script)) /\
  (main script half_blocked_world
     = Raise IsADirectoryError (state_of (main script half_blocked_world)) /\
   lookup (fs (state_of (main script half_blocked_world))) (dt_target script)
     = Some (File (saved dt_net_figure))).
Proof.
  split.
  - apply (proj1 (entry_point_stops_at_first_failure script blocked_world)).
    reflexivity.
  - apply (proj2 (entry_point_stops_at_first_failure script half_blocked_world)
             (state_of (generate_dt_net_diagram (dt_target script) half_blocked_world))).
    + reflexivity.
    + reflexivity.
Defined.

(** ** Well-formed file systems: results *)

Lemma well_formed_chain (fs : FileSystem) (q : Path) :
  well_formed fs -> is_dir fs q = true -> no_file_on fs q = true.
Proof.
  intros W. induction q as [|c q IH]; intros D; [reflexivity|].
  cbn [no_file_on]. apply is_dir_lookup in D. rewrite D.
  apply IH. apply (W (c :: q)). congruence.
Qed.

Lemma mkdir_blocked_kind (fs : FileSystem) (q : Path) :
  well_formed fs -> no_file_on fs q = false ->
  exists e, Path_mkdir q fs = Raise e fs /\
    ((e = FileExistsError /\ exists d, lookup fs q = Some (File d)) \/
     (e = NotADirectoryError /\ lookup fs q = None)).
Proof.
  intros W. induction q as [|c q IH]; intros N; [discriminate|].
  cbn [no_file_on] in N. cbn [Path_mkdir]. unfold os_mkdir at 1.
  destruct (lookup fs (c :: q)) as [[|d]|] eqn:L.
  - assert (D : is_dir fs q = true) by (apply (W (c :: q)); congruence).
    rewrite (well_formed_chain _ _ W D) in N. discriminate.
  - unfold is_dir. rewrite L. eexists; split; [reflexivity|].
    left; split; [reflexivity|now exists d].
  - cbn [parent tl].
    destruct (lookup fs q) as [[|d]|] eqn:U.
    + assert (D : is_dir fs q = true) by now apply is_dir_lookup.
      rewrite (well_formed_chain _ _ W D) in N. discriminate.
    + unfold is_dir. rewrite L. eexists; split; [reflexivity|].
      right; split; reflexivity.
    + destruct (IH N) as (e & E & [[_ [d Hd]]|[-> _]]); [discriminate|].
      rewrite E. eexists; split; [reflexivity|]. right; split; reflexivity.
Qed.

Lemma well_formed_empty : well_formed empty_fs.
Proof. intros [|c q] H; [reflexivity|]. now elim H. Qed.

Lemma well_formed_update (fs : FileSystem) (p : Path) (n : node) :
  well_formed fs -> is_dir fs (parent p) = true -> is_dir fs p = false -> p <> [] ->
  well_formed (update fs p n).
Proof.
  intros W Dup Np Hp q Hq.
  assert (Pq : is_dir fs (parent q) = true).
  { destruct (path_eqb q p) eqn:E.
    - apply path_eqb_eq in E; subst q. exact Dup.
    - apply W. rewrite lookup_update_other in Hq; [exact Hq|].
      intros ->. rewrite path_eqb_refl in E; discriminate. }
  apply is_dir_lookup. rewrite lookup_update_other; [now apply is_dir_lookup|].
  intros E. rewrite E in Pq. congruence.
Qed.

Lemma well_formed_blocked_world : well_formed (fs blocked_world).
Proof.
  cbn [fs blocked_world].
  repeat (apply well_formed_update;
          [ | reflexivity | reflexivity | discriminate ]).
  apply well_formed_empty.
Qed.


(** What [store] does when it raises, in a well-formed file system. *)
Lemma store_raise_cases (d : Document) (t p : Path) (w w' : World) (e : Exception) :
  well_formed (fs w) -> parent t = parent p -> store d t p w = Raise e w' ->
  w' = w /\
  ((e = IsADirectoryError /\ is_dir (fs w) t = true) \/
   (e = FileExistsError /\ exists d0, lookup (fs w) (parent p) = Some (File d0)) \/
   (e = NotADirectoryError /\ lookup (fs w) (parent p) = None /\
    no_file_on (fs w) (parent p) = false)).
Proof.
  intros W Pt. unfold store, and_then, on_fs, print.
  destruct (no_file_on (fs w) (parent p)) eqn:N.
  - destruct (mkdir_succeeds _ _ N) as [f1 M]. rewrite M. cbn [fs stdout].
    pose proof (mkdir_returns_dir _ _ _ M) as D1.
    destruct (write_file d t f1) as [f2|e2 f2] eqn:Wr; [discriminate|].
    intros H; inversion H; subst e2 w'. clear H.
    pose proof (write_file_raise _ _ _ _ _ Wr) as ->.
    apply write_file_raise_cases in Wr as [[-> Dp]|Dpar]; [|rewrite Pt in Dpar; congruence].
    assert (Dw : is_dir (fs w) t = true).
    { pose proof (mkdir_grows (parent p) (fs w)) as G. rewrite M in G.
      cbn [state_of] in G. apply is_dir_lookup in Dp. apply is_dir_lookup.
      destruct (G t) as [Q|(_ & _ & A)]; [congruence|].
      destruct t as [|c t]; [reflexivity|].
      exfalso. revert A. rewrite <- Pt. apply not_above_parent. discriminate. }
    assert (Dup : is_dir (fs w) (parent p) = true).
    { rewrite <- Pt. apply W. apply is_dir_lookup in Dw. congruence. }
    rewrite (mkdir_existing_dir _ _ Dup) in M. inversion M; subst f1.
    split; [now destruct w|]. left; split; [reflexivity|exact Dw].
  - destruct (mkdir_blocked_kind _ _ W N) as (e1 & M & K). rewrite M.
    intros H; inversion H; subst e w'. split; [now destruct w|].
    destruct K as [[-> [d0 Hd]]|[-> L]].
    + right; left. split; [reflexivity|now exists d0].
    + right; right. repeat split; assumption.
Qed.

(** ** The entry point: both documents *)

(** X6.  When the DTNet document can be written and no directory has the
    name of the ITNet document, the entry point returns with both documents
    in place, each under its own name in [outputs/diagrams] of the project
    root, and has printed the two paths, DTNet first. *)
Theorem main_writes_both_documents (file : Path) (w : World) :
  savable (fs w) (dt_target file) = true ->
  is_dir (fs w) (it_target file) = false ->
  exists w',
    main file w = Ok w' /\
    lookup (fs w') (dt_target file) = Some (File (saved dt_net_figure)) /\
    lookup (fs w') (it_target file) = Some (File (saved it_net_figure)) /\
    stdout w' = stdout w ++ [("Saved: " ++ str (dt_target file))%string;
                             ("Saved: " ++ str (it_target file))%string].
Proof.
  intros S N.
  destruct (targets_are_pdf file) as [Pd Pi].
  unfold savable in S. apply andb_true_iff in S as [Sup Sp].
  apply negb_true_iff in Sp.
  destruct (store_succeeds (saved dt_net_figure) _ _ w Sup eq_refl Sp) as (w1 & H1).
  pose proof (store_ok_stdout _ _ _ _ _ H1) as O1.
  destruct (store_ok_parent_dir _ _ _ _ _ eq_refl H1) as [Dup _].
  pose proof (store_ok_writes _ _ _ _ _ H1) as L1.
  assert (N1 : is_dir (fs w1) (it_target file) = false).
  { pose proof (store_frame (saved dt_net_figure) (dt_target file) (dt_target file)
                            (it_target file) w) as F.
    rewrite H1 in F. cbn [state_of] in F.
    destruct F as [Q|(_ & _ & A)].
    - intros E; apply (sibling_targets_differ file); now symmetry.
    - unfold is_dir in *. now rewrite Q.
    - now apply it_target_not_above_dir in A. }
  rewrite main_runs_both. unfold and_then.
  rewrite generate_dt_net_diagram_emit, (emit_pdf _ _ Pd), H1.
  rewrite generate_it_net_diagram_emit, (emit_pdf _ _ Pi).
  rewrite (store_with_parent (saved it_net_figure) (it_target file) (it_target file)
             w1 Dup eq_refl N1).
  eexists. split; [reflexivity|]. cbn [fs stdout].
  split; [|split].
  - rewrite lookup_update_other; [exact L1|apply sibling_targets_differ].
  - apply lookup_update_same. discriminate.
  - rewrite O1, <- app_assoc. reflexivity.
Qed.

Lemma main_writes_both_documents_witness :
  exists w',
    main script fresh_world = Ok w' /\
    lookup (fs w') (dt_target script) = Some (File (saved dt_net_figure)) /\
    lookup (fs w') (it_target script) = Some (File (saved it_net_figure)) /\
    stdout w' = stdout fresh_world
                  ++ [("Saved: " ++ str (dt_target script))%string;
                      ("Saved: " ++ str (it_target script))%string].
Proof.
  apply (main_writes_both_documents script fresh_world); reflexivity.
Defined.


(** ** File names and file types *)

Lemma bare_name_no_dot (s : string) : bare_name s = true -> split_last_dot s = None.
Proof.
  induction s as [|c s IH]; [reflexivity|]. cbn [bare_name split_last_dot].
  rewrite !andb_true_iff, !negb_true_iff. intros [[Hd _] Hs].
  now rewrite (IH Hs), Hd.
Qed.

Lemma bare_name_rstrip (s : string) : bare_name s = true -> rstrip_dots s = s.
Proof.
  induction s as [|c s IH]; [reflexivity|]. cbn [bare_name rstrip_dots].
  rewrite !andb_true_iff, !negb_true_iff. intros [[Hd _] Hs].
  rewrite (IH Hs), Hd. now destruct s.
Qed.

Lemma bare_name_not_root (s : string) : bare_name s = true -> String.eqb s "/" = false.
Proof.
  destruct s as [|c s]; [reflexivity|]. cbn [bare_name].
  rewrite !andb_true_iff, !negb_true_iff. intros [[_ Hs] _].
  cbn [String.eqb]. now rewrite Hs.
Qed.

(** A name without extension is written with [.png] appended. *)
Lemma print_target_bare (name : string) (up : Path) :
  bare_name name = true ->
  print_target (name :: up) = Some ((name ++ ".png")%string :: up, "png"%string).
Proof.
  intros B. unfold print_target. rewrite (bare_name_not_root _ B).
  unfold print_name, splitext. rewrite (bare_name_no_dot _ B). cbn [snd String.eqb].
  now rewrite (bare_name_rstrip _ B).
Qed.

Lemma split_last_dot_stem (stem ext : string) :
  bare_name ext = true ->
  split_last_dot (stem ++ String "." ext) = Some (stem, String "." ext).
Proof.
  intros B. induction stem as [|c s IH]; cbn [append split_last_dot].
  - now rewrite (bare_name_no_dot _ B).
  - now rewrite IH.
Qed.

Lemma bare_name_not_all_dots (s : string) :
  bare_name s = true -> s <> EmptyString -> all_dots s = false.
Proof.
  destruct s as [|c s]; [congruence|]. cbn [bare_name all_dots].
  rewrite !andb_true_iff, !negb_true_iff. intros [[Hd _] _] _. now rewrite Hd.
Qed.

Lemma not_root_with_extension (stem ext : string) :
  stem <> EmptyString -> String.eqb (stem ++ String "." ext) "/" = false.
Proof.
  destruct stem as [|c [|c' s]]; [congruence| |]; intros _; cbn [append String.eqb].
  - destruct (Ascii.eqb c "/"); reflexivity.
  - destruct (Ascii.eqb c "/"); reflexivity.
Qed.

(** Every name made of a stem without dot, then [.pdf], is a PDF path. *)
Lemma pdf_path_of_stem (stem : string) (up : Path) :
  bare_name stem = true -> stem <> EmptyString ->
  pdf_path ((stem ++ ".pdf")%string :: up).
Proof.
  intros B N. unfold pdf_path, print_target.
  rewrite (not_root_with_extension stem "pdf" N).
  unfold print_name, splitext. rewrite (split_last_dot_stem stem "pdf" eq_refl).
  rewrite (bare_name_not_all_dots _ B N). reflexivity.
Qed.

(** ** What each generator writes: result *)




(** ** When a generator returns and what it does when it does not *)

(** X1.  For an output path without [..] and with the extension [.pdf], in
    a well-formed file system (no permissions or disk limits are modelled), a generator returns exactly when the path can be written:
    nothing above it is a regular file (missing directories are made) and
    the path itself is not a directory. *)
Theorem generator_returns_iff_savable (g : Path -> action) (p : Path) (w : World) :
  In g generators ->
  well_formed (fs w) ->
  resolved p = true ->
  pdf_path p ->
  (exists w', g p w = Ok w') <-> savable (fs w) p = true.
Proof.
  intros Hg W _ P. destruct (generators_emit g Hg) as (f & _ & E).
  rewrite E, (emit_pdf _ _ P).
  split.
  - intros [w' H]. unfold savable. apply andb_true_iff. split.
    + destruct (no_file_on (fs w) (parent p)) eqn:N; [reflexivity|].
      destruct (mkdir_blocked_kind _ _ W N) as (e & M & _).
      revert H. unfold store, and_then, on_fs. rewrite M. discriminate.
    + apply negb_true_iff. destruct (is_dir (fs w) p) eqn:D; [|reflexivity].
      assert (Dup : is_dir (fs w) (parent p) = true).
      { apply W. apply is_dir_lookup in D. congruence. }
      rewrite (store_on_directory (saved f) p p w Dup D) in H. discriminate.
  - intros H. unfold savable in H. apply andb_true_iff in H as [Sup Sp].
    apply negb_true_iff in Sp. now apply store_succeeds.
Qed.

Lemma generator_returns_iff_savable_witness :
  ((exists w', generate_dt_net_diagram out_dt fresh_world = Ok w')
     <-> savable (fs fresh_world) out_dt = true) /\
  ((exists w', generate_it_net_diagram (dt_target script) blocked_world = Ok w')
     <-> savable (fs blocked_world) (dt_target script) = true).
Proof.
  split.
  - apply (generator_returns_iff_savable generate_dt_net_diagram out_dt fresh_world).
    + left; reflexivity.
    + apply well_formed_empty.
    + reflexivity.
    + reflexivity.
  - apply (generator_returns_iff_savable generate_it_net_diagram
             (dt_target script) blocked_world).
    + right; left; reflexivity.
    + apply well_formed_blocked_world.
    + reflexivity.
    + reflexivity.
Defined.

(** X2.  For an output path without [..] and with the extension [.pdf], in
    a well-formed file system, a generator that raises leaves the world exactly as it
    found it: no directory made, nothing written, nothing printed.  The
    exception is [IsADirectoryError] when the output path is a directory,
    [FileExistsError] when its parent is a regular file, and
    [NotADirectoryError] when the parent is missing and a regular file lies
    further up; it is neither [FileNotFoundError] nor [ValueError]. *)
Theorem pdf_failure_changes_nothing
        (g : Path -> action) (p : Path) (w w' : World) (e : Exception) :
  In g generators ->
  well_formed (fs w) ->
  resolved p = true ->
  pdf_path p ->
  g p w = Raise e w' ->
  w' = w /\
  ((e = IsADirectoryError /\ is_dir (fs w) p = true) \/
   (e = FileExistsError /\ exists d, lookup (fs w) (parent p) = Some (File d)) \/
   (e = NotADirectoryError /\ lookup (fs w) (parent p) = None /\
    no_file_on (fs w) (parent p) = false)).
Proof.
  intros Hg W _ P. destruct (generators_emit g Hg) as (f & _ & E).
  rewrite E, (emit_pdf _ _ P). now apply store_raise_cases.
Qed.

Lemma pdf_failure_changes_nothing_witness :
  state_of (generate_dt_net_diagram (dt_target script) blocked_world) = blocked_world /\
  ((OS IsADirectoryError = IsADirectoryError /\
    is_dir (fs blocked_world) (dt_target script) = true) \/
   (OS IsADirectoryError = FileExistsError /\
    exists d, lookup (fs blocked_world) (parent (dt_target script)) = Some (File d)) \/
   (OS IsADirectoryError = NotADirectoryError /\
    lookup (fs blocked_world) (parent (dt_target script)) = None /\
    no_file_on (fs blocked_world) (parent (dt_target script)) = false)).
Proof.
  apply (pdf_failure_changes_nothing generate_dt_net_diagram
           (dt_target script) blocked_world).
  - left; reflexivity.
  - apply well_formed_blocked_world.
  - reflexivity.
  - reflexivity.
  - reflexivity.
Defined.

(** X5.  A [.pdf] path written by one generator can be written by the
    other: the call returns, and the document at the path is then the later
    generator's. *)
Theorem last_generator_wins (p : Path) (w w1 : World) :
  pdf_path p ->
  (generate_dt_net_diagram p w = Ok w1 ->
   exists w2, generate_it_net_diagram p w1 = Ok w2 /\
              lookup (fs w2) p = Some (File (saved it_net_figure))) /\
  (generate_it_net_diagram p w = Ok w1 ->
   exists w2, generate_dt_net_diagram p w1 = Ok w2 /\
              lookup (fs w2) p = Some (File (saved dt_net_figure))).
Proof.
  intros P.
  split; intros H;
    [ rewrite generate_dt_net_diagram_emit, (emit_pdf _ _ P) in H;
      rewrite generate_it_net_diagram_emit, (emit_pdf _ _ P)
    | rewrite generate_it_net_diagram_emit, (emit_pdf _ _ P) in H;
      rewrite generate_dt_net_diagram_emit, (emit_pdf _ _ P) ];
    destruct (store_ok_parent_dir _ _ _ _ _ eq_refl H) as [Dup Np];
    (eexists; split; [now apply store_with_parent|]); cbn [fs];
    apply lookup_update_same; intros ->; discriminate Np.
Qed.

Lemma last_generator_wins_witness :
  (exists w2,
      generate_it_net_diagram out_dt
        (state_of (generate_dt_net_diagram out_dt fresh_world)) = Ok w2 /\
      lookup (fs w2) out_dt = Some (File (saved it_net_figure))) /\
  (exists w2,
      generate_dt_net_diagram out_dt
        (state_of (generate_it_net_diagram out_dt fresh_world)) = Ok w2 /\
      lookup (fs w2) out_dt = Some (File (saved dt_net_figure))).
Proof.
  split.
  - apply (proj1 (last_generator_wins out_dt fresh_world _ eq_refl)). reflexivity.
  - apply (proj2 (last_generator_wins out_dt fresh_world _ eq_refl)). reflexivity.
Defined.

(** X7.  In any world and for any path, a generator prints its ["Saved: "]
    line exactly when it returns, and then a document of the file type
    [savefig] settled on is at the path [savefig] wrote; when it raises it
    prints nothing. *)
Theorem saved_line_only_after_saving (g : Path -> action) (p : Path) (w : World) :
  In g generators ->
  match g p w with
  | Ok w' =>
      stdout w' = stdout w ++ [("Saved: " ++ str p)%string] /\
      exists t format d,
        print_target p = Some (t, format) /\
        lookup (fs w') t = Some (File d) /\ filetype d = format
  | Raise _ w' => stdout w' = stdout w
  end.
Proof.
  intros Hg. destruct (generators_emit g Hg) as (f & _ & E). rewrite E.
  destruct (emit f p w) as [w'|e w'] eqn:H.
  - destruct (print_target p) as [[t format]|] eqn:T.
    + rewrite (emit_known f p t format T) in H.
      split; [exact (store_ok_stdout _ _ _ _ _ H)|].
      exists t, format, (mk_document f "tight" "white" format).
      split; [reflexivity|]. split; [exact (store_ok_writes _ _ _ _ _ H)|reflexivity].
    + rewrite (emit_unknown f p w T) in H.
      destruct (Path_mkdir (parent p) (fs w)); discriminate.
  - exact (proj2 (emit_raise_grows _ _ _ _ _ H)).
Qed.

Lemma saved_line_only_after_saving_witness :
  match generate_dt_net_diagram out_dt fresh_world with
  | Ok w' =>
      stdout w' = stdout fresh_world ++ [("Saved: " ++ str out_dt)%string] /\
      exists t format d,
        print_target out_dt = Some (t, format) /\
        lookup (fs w') t = Some (File d) /\ filetype d = format
  | Raise _ w' => stdout w' = stdout fresh_world
  end /\
  match generate_dt_net_diagram (dt_target script) blocked_world with
  | Ok w' =>
      stdout w' = stdout blocked_world ++ [("Saved: " ++ str (dt_target script))%string] /\
      exists t format d,
        print_target (dt_target script) = Some (t, format) /\
        lookup (fs w') t = Some (File d) /\ filetype d = format
  | Raise _ w' => stdout w' = stdout blocked_world
  end.
Proof.
  split.
  - apply (saved_line_only_after_saving generate_dt_net_diagram out_dt fresh_world).
    left; reflexivity.
  - apply (saved_line_only_after_saving generate_dt_net_diagram
             (dt_target script) blocked_world).
    left; reflexivity.
Defined.

Lemma string_length_append (s t : string) :
  String.length (s ++ t) = (String.length s + String.length t)%nat.
Proof. induction s as [|c s IH]; simpl; [reflexivity | now rewrite IH]. Qed.

(** X16.  For an output path without [..] whose name has no extension (no
    dot in it),
    a generator that returns has written its picture as a PNG to the path
    with [.png] appended; the path given holds what it held before, and the
    line printed names the path given, not the file written. *)
Theorem bare_name_written_as_png (name : string) (up : Path) (w w' : World) :
  resolved (name :: up) = true ->
  plain_name name = true ->
  (generate_dt_net_diagram (name :: up) w = Ok w' ->
   lookup (fs w') ((name ++ ".png")%string :: up) =
     Some (File (mk_document dt_net_figure "tight" "white" "png")) /\
   lookup (fs w') (name :: up) = lookup (fs w) (name :: up) /\
   stdout w' = stdout w ++ [("Saved: " ++ str (name :: up))%string]) /\
  (generate_it_net_diagram (name :: up) w = Ok w' ->
   lookup (fs w') ((name ++ ".png")%string :: up) =
     Some (File (mk_document it_net_figure "tight" "white" "png")) /\
   lookup (fs w') (name :: up) = lookup (fs w) (name :: up) /\
   stdout w' = stdout w ++ [("Saved: " ++ str (name :: up))%string]).
Proof.
  intros _ B. unfold plain_name in B. apply andb_true_iff in B as [_ B].
  assert (K : forall f, emit f (name :: up) w = Ok w' ->
     lookup (fs w') ((name ++ ".png")%string :: up) =
       Some (File (mk_document f "tight" "white" "png")) /\
     lookup (fs w') (name :: up) = lookup (fs w) (name :: up) /\
     stdout w' = stdout w ++ [("Saved: " ++ str (name :: up))%string]).
  { intros f H.
    rewrite (emit_known f _ _ _ (print_target_bare name up B)) in H.
    split; [exact (store_ok_writes _ _ _ _ _ H)|].
    split; [|exact (store_ok_stdout _ _ _ _ _ H)].
    assert (Hq : name :: up <> (name ++ ".png")%string :: up).
    { intros C. inversion C as [C']. apply (f_equal String.length) in C'.
      rewrite string_length_append in C'. simpl in C'. lia. }
    pose proof (store_frame (mk_document f "tight" "white" "png")
                  ((name ++ ".png")%string :: up) (name :: up) (name :: up) w Hq) as F.
    rewrite H in F. cbn [state_of] in F.
    destruct F as [Q|(_ & _ & A)]; [exact Q|].
    exfalso. revert A. apply not_above_parent. discriminate. }
  split; intros H; apply K.
  - now rewrite <- generate_dt_net_diagram_emit.
  - now rewrite <- generate_it_net_diagram_emit.
Qed.

Lemma bare_name_written_as_png_witness :
  lookup (fs (state_of (generate_dt_net_diagram ([] // "out" // "dt") used_world)))
         ([] // "out" // "dt.png") =
    Some (File (mk_document dt_net_figure "tight" "white" "png")) /\
  lookup (fs (state_of (generate_dt_net_diagram ([] // "out" // "dt") used_world)))
         ([] // "out" // "dt") = lookup (fs used_world) ([] // "out" // "dt") /\
  stdout (state_of (generate_dt_net_diagram ([] // "out" // "dt") used_world)) =
    stdout used_world ++ ["Saved: out/dt"%string].
Proof.
  apply (proj1 (bare_name_written_as_png "dt" ([] // "out") used_world _ eq_refl eq_refl)).
  reflexivity.
Defined.

(** X17.  For an output path without [..] whose name has an extension that
    is not a file type [savefig] knows, and with no regular file above the path, a
    generator raises [ValueError]; by then the directories above the path
    have been made, while nothing is at the path that was not there before
    and nothing has been printed. *)
Theorem unknown_extension_raises_after_mkdir
        (g : Path -> action) (p : Path) (w : World) :
  In g generators ->
  resolved p = true ->
  print_target p = None ->
  no_file_on (fs w) (parent p) = true ->
  exists w', g p w = Raise ValueError w' /\
             is_dir (fs w') (parent p) = true /\
             lookup (fs w') p = lookup (fs w) p /\
             stdout w' = stdout w.
Proof.
  intros Hg _ T N. destruct (generators_emit g Hg) as (f & _ & E).
  rewrite E, (emit_unknown f p w T).
  destruct (mkdir_succeeds _ _ N) as [f1 M].
  pose proof (mkdir_grows (parent p) (fs w)) as G.
  rewrite M in *. cbn [state_of] in G.
  eexists; split; [reflexivity|]. cbn [fs stdout].
  split; [exact (mkdir_returns_dir _ _ _ M)|]. split; [|reflexivity].
  destruct (G p) as [Q|(_ & _ & A)]; [exact Q|].
  exfalso. revert A. apply not_above_parent.
  intros ->. discriminate T.
Qed.

Lemma unknown_extension_raises_after_mkdir_witness :
  exists w', generate_it_net_diagram ([] // "out" // "dt.xyz") fresh_world
               = Raise ValueError w' /\
             is_dir (fs w') (parent ([] // "out" // "dt.xyz")) = true /\
             lookup (fs w') ([] // "out" // "dt.xyz")
               = lookup (fs fresh_world) ([] // "out" // "dt.xyz") /\
             stdout w' = stdout fresh_world.
Proof.
  apply (unknown_extension_raises_after_mkdir generate_it_net_diagram
           ([] // "out" // "dt.xyz") fresh_world).
  - right; left; reflexivity.
  - reflexivity.
  - reflexivity.
  - reflexivity.
Defined.

(** ** Layout of the pictures: further results *)

(** X8.  In both figures every artist is placed inside the data rectangle
    set by [set_xlim(0, 14)] and [set_ylim(1, 6)]: the corners of every
    shape, the anchor of every text and the end points of every connector. *)
Theorem pictures_within_view :
  within_view dt_net_figure = true /\ within_view it_net_figure = true.
Proof. by_evaluation. Qed.


(** X10.  In both pictures each pair of neighbouring shapes of the main flow
    is joined by exactly one straight arrow, six in all: it leaves the right
    edge of the left shape at centre height, runs horizontally to the right
    and ends on the left edge of the right shape or at most 0.05 before it.
    In the decimal reading the arrow leaves the edge exactly; on doubles it
    leaves it within [1e-9], a rounding error off. *)
Theorem neighbours_joined_by_arrows :
  joined 0 (flow_shapes dt_axes) (flow_arrows dt_axes) = true /\
  joined 0 (flow_shapes it_axes) (flow_arrows it_axes) = true /\
  joined rounding (flow_shapes Doubles.dt_axes) (flow_arrows Doubles.dt_axes) = true /\
  joined rounding (flow_shapes Doubles.it_axes) (flow_arrows Doubles.it_axes) = true /\
  length (flow_arrows dt_axes) = 6%nat /\ length (flow_arrows it_axes) = 6%nat /\
  length (flow_arrows Doubles.dt_axes) = 6%nat /\
  length (flow_arrows Doubles.it_axes) = 6%nat.
Proof. by_evaluation. Qed.



(** ** The palette *)

Lemma palette_values_not_empty (k v : string) :
  dict_get COLORS k = Some v -> v <> ""%string.
Proof.
  unfold COLORS. cbn [dict_get].
  repeat match goal with
         | |- context [String.eqb k ?s] => destruct (String.eqb k s)
         end;
    intros H; inversion H; discriminate.
Qed.

(** X14.  A palette lookup gives the empty colour only for a key that is
    not in [COLORS], and no artist of either picture has an empty colour:
    every key the generators look up is present. *)
Theorem palette_lookups_hit :
  (forall k, color_of k = ""%string <-> dict_get COLORS k = None) /\
  no_empty_colour dt_axes = true /\ no_empty_colour it_axes = true.
Proof.
  split; [|by_evaluation].
  intros k. unfold color_of.
  destruct (dict_get COLORS k) as [v|] eqn:E.
  - apply palette_values_not_empty in E. split; [intros ->; congruence|discriminate].
  - split; reflexivity.
Qed.
